(** * Movie theater administration: the persistence operations of hello2.py

    A shallow embedding of the data model and of the functions
    [add_sample_data], [get_all_movies], [add_movie_orm], [update_movie_orm],
    [delete_movie_orm], [fetch_movie_rooms], [update_movie_rooms] and
    [generate_report], with the properties the specification states about
    them.

    The program talks to SQLite through a process-wide SQLAlchemy session.
    What the embedding fixes about that engine:

    - a table is the list of its rows in scan order; a table with an INTEGER
      PRIMARY KEY is scanned by ascending key, and a row inserted without a
      key receives the largest key plus one (1 in an empty table);
    - the composite primary key of movie_room_association rejects a second
      copy of a pair (IntegrityError); the failed statement alone is undone,
      the transaction stays open;
    - the engine is created by [create_engine('sqlite:///movie.db')] with no
      further setting, so SQLite's foreign-key enforcement is off (its
      default): the FOREIGN KEY clauses of the schema are not checked;
    - the session reads and writes inside one open transaction ([current]);
      [session.commit()] makes it durable ([committed]); the program never
      calls rollback, and an exception raised by [session.execute] leaves
      the open transaction as it is;
    - a date is stored as ISO text, so BETWEEN compares year, then month,
      then day;
    - ids, numbers and durations are integers without bound. *)

From Stdlib Require Import ZArith List Bool String Lia Sorted Permutation.
Import ListNotations.
Local Open Scope Z_scope.

(** ** Column types *)

Record Date : Type := mkDate { year : Z; month : Z; day : Z }.

Record TimeOfDay : Type := mkTime { hour : Z; minute : Z; second : Z }.

(** Order of the ISO texts YYYY-MM-DD. *)
Definition date_leb (a b : Date) : bool :=
  (year a <? year b)
  || ((year a =? year b)
      && ((month a <? month b)
          || ((month a =? month b) && (day a <=? day b)))).

(** [x BETWEEN lo AND hi] *)
Definition between (x lo hi : Date) : bool := date_leb lo x && date_leb x hi.

(** ** Rows of the four tables *)

Module Movie.
Record t : Type := mk
  { movie_id : Z;
    title : string;
    genre : option string;
    duration : option Z;
    release_date : option Date }.
End Movie.

Module Room.
Record t : Type := mk
  { room_id : Z;
    room_number : Z;
    max_capacity : option Z }.
End Room.

Module Showtime.
Record t : Type := mk
  { showtime_id : Z;
    movie_id : Z;
    room_id : Z;
    show_date : Date;
    show_time : TimeOfDay }.
End Showtime.

(** A row of the report: the five selected columns. *)
Module Report.
Record t : Type := mk
  { title : string;
    show_date : Date;
    show_time : TimeOfDay;
    room_number : Z;
    duration : option Z }.
End Report.

(** ** The store and the session *)

Record Store : Type := mkStore
  { Movies : list Movie.t;
    Rooms : list Room.t;
    Showtimes : list Showtime.t;
    movie_room_association : list (Z * Z) }.

Definition empty_store : Store := mkStore [] [] [] [].

(** [committed] is what movie.db holds; [current] is what the session's open
    transaction sees and what every statement of the session acts on. *)
Record Session : Type := mkSession
  { committed : Store;
    current : Store }.

Definition open_session (d : Store) : Session := mkSession d d.

Definition with_Movies (d : Store) (l : list Movie.t) : Store :=
  mkStore l (Rooms d) (Showtimes d) (movie_room_association d).

Definition with_Rooms (d : Store) (l : list Room.t) : Store :=
  mkStore (Movies d) l (Showtimes d) (movie_room_association d).

Definition with_association (d : Store) (l : list (Z * Z)) : Store :=
  mkStore (Movies d) (Rooms d) (Showtimes d) l.

(** ** Exceptions and the session monad

    A computation runs on the session and either returns a value or raises;
    in both cases the session it leaves behind is part of the outcome. *)

Inductive error : Type :=
| AttributeError         (* attribute assignment on None *)
| UnmappedInstanceError  (* session.delete(None) *)
| IntegrityError         (* UNIQUE constraint failed *)
| FlushError.            (* None found in a relationship collection *)

Inductive result (A : Type) : Type :=
| Ok (a : A)
| Raise (e : error).

Arguments Ok {A} a.
Arguments Raise {A} e.

Definition M (A : Type) : Type := Session -> Session * result A.

Definition ret {A : Type} (a : A) : M A := fun s => (s, Ok a).

Definition bind {A B : Type} (m : M A) (k : A -> M B) : M B :=
  fun s =>
    match m s with
    | (s', Ok a) => k a s'
    | (s', Raise e) => (s', Raise e)
    end.

Definition raise {A : Type} (e : error) : M A := fun s => (s, Raise e).

Declare Scope session_scope.
Delimit Scope session_scope with session.
Notation "x <- c1 ;; c2" := (bind c1 (fun x => c2))
  (at level 61, c1 at next level, right associativity) : session_scope.
Notation "c1 ;; c2" := (bind c1 (fun _ => c2))
  (at level 61, right associativity) : session_scope.
Local Open Scope session_scope.

(** A query: reads the open transaction. *)
Definition read {A : Type} (q : Store -> A) : M A :=
  fun s => (s, Ok (q (current s))).

(** A statement that cannot fail: rewrites the open transaction. *)
Definition modify (f : Store -> Store) : M unit :=
  fun s => (mkSession (committed s) (f (current s)), Ok tt).

(** [session.commit()] *)
Definition commit : M unit :=
  fun s => (mkSession (current s) (current s), Ok tt).

(** [for x in l: body(x)] *)
Fixpoint for_each {A : Type} (l : list A) (body : A -> M unit) : M unit :=
  match l with
  | [] => ret tt
  | x :: l' => body x ;; for_each l' body
  end.

(** ** The engine: keys, lookups and the statements the program issues *)

(** The key given to a row inserted without one. *)
Definition next_rowid (ids : list Z) : Z :=
  match ids with
  | [] => 1
  | i :: ids' => fold_left Z.max ids' i + 1
  end.

(** [session.query(Movie).get(movie_id)] *)
Definition get_movie (movie_id : Z) (d : Store) : option Movie.t :=
  find (fun m => Movie.movie_id m =? movie_id) (Movies d).

(** [session.query(Room).get(room_id)] *)
Definition get_room (room_id : Z) (d : Store) : option Room.t :=
  find (fun r => Room.room_id r =? room_id) (Rooms d).

Definition pair_eqb (a b : Z * Z) : bool :=
  (fst a =? fst b) && (snd a =? snd b).

(** INSERT INTO Rooms (room_number, max_capacity) VALUES (?, ?) *)
Definition insert_room (room_number : Z) (max_capacity : option Z) : M Room.t :=
  fun s =>
    let d := current s in
    let r := Room.mk (next_rowid (map Room.room_id (Rooms d)))
                     room_number max_capacity in
    (mkSession (committed s) (with_Rooms d (Rooms d ++ [r])), Ok r).

(** INSERT INTO Movies (title, genre, duration, release_date)
    VALUES (?, ?, ?, ?) *)
Definition insert_movie (title : string) (genre : option string)
    (duration : option Z) (release_date : option Date) : M Movie.t :=
  fun s =>
    let d := current s in
    let m := Movie.mk (next_rowid (map Movie.movie_id (Movies d)))
                      title genre duration release_date in
    (mkSession (committed s) (with_Movies d (Movies d ++ [m])), Ok m).

(** UPDATE Movies SET title=?, genre=?, duration=?, release_date=?
    WHERE movie_id = ? *)
Definition update_movie_row (movie_id : Z) (title : string)
    (genre : option string) (duration : option Z)
    (release_date : option Date) : M unit :=
  modify (fun d =>
    with_Movies d
      (map (fun m =>
              if Movie.movie_id m =? movie_id
              then Movie.mk movie_id title genre duration release_date
              else m)
           (Movies d))).

(** DELETE FROM Movies WHERE movie_id = ? *)
Definition delete_movie_row (movie_id : Z) : M unit :=
  modify (fun d =>
    with_Movies d
      (filter (fun m => negb (Movie.movie_id m =? movie_id)) (Movies d))).

(** DELETE FROM movie_room_association WHERE movie_id = :movie_id *)
Definition delete_association_of_movie (movie_id : Z) : M unit :=
  modify (fun d =>
    with_association d
      (filter (fun a => negb (fst a =? movie_id))
              (movie_room_association d))).

(** DELETE FROM movie_room_association WHERE movie_id = ? AND room_id = ? *)
Definition delete_association_row (movie_id room_id : Z) : M unit :=
  modify (fun d =>
    with_association d
      (filter (fun a => negb (pair_eqb a (movie_id, room_id)))
              (movie_room_association d))).

(** INSERT INTO movie_room_association (movie_id, room_id)
    VALUES (:movie_id, :room_id).
    Only the primary key is checked: neither id is looked up in Movies or
    Rooms. *)
Definition insert_association (movie_id room_id : Z) : M unit :=
  fun s =>
    let d := current s in
    if existsb (pair_eqb (movie_id, room_id)) (movie_room_association d)
    then (s, Raise IntegrityError)
    else (mkSession (committed s)
            (with_association d
               (movie_room_association d ++ [(movie_id, room_id)])),
          Ok tt).

(** The collection [movie.rooms], loaded by
    SELECT Rooms.* FROM Rooms, movie_room_association
    WHERE :movie_id = movie_room_association.movie_id
      AND Rooms.room_id = movie_room_association.room_id
    Each room that some row links to the movie is in it once. *)
Definition relationship_rooms (movie_id : Z) (d : Store) : list Room.t :=
  filter (fun r =>
            existsb (fun a => (fst a =? movie_id) && (snd a =? Room.room_id r))
                    (movie_room_association d))
         (Rooms d).

(** ** The functions of hello2.py *)

(** A flush that fails makes the session roll its transaction back before
    the exception reaches the caller. *)
Definition flushing {A : Type} (m : M A) : M A :=
  fun s =>
    match m s with
    | (s', Ok a) => (s', Ok a)
    | (s', Raise e) => (mkSession (committed s') (committed s'), Raise e)
    end.

(** [add_sample_data()].  The two rooms are written when the query on Movie
    flushes the session; the two movies and the link of the first one are
    written by the flush of [session.commit()].  [session.query(Room).get(1)]
    may find no room: None is then appended to [movie1.rooms] and the flush
    refuses it. *)
Definition add_sample_data : M unit :=
  first_room <- read (fun d => hd_error (Rooms d)) ;;
  match first_room with
  | None =>
      insert_room 1 (Some 3) ;;
      insert_room 2 (Some 2) ;;
      ret tt
  | Some _ => ret tt
  end ;;
  first_movie <- read (fun d => hd_error (Movies d)) ;;
  match first_movie with
  | None =>
      room <- read (get_room 1) ;;
      flushing
        (match room with
         | Some r =>
             movie1 <- insert_movie "Inception" (Some "Sci-Fi"%string)
                         (Some 148) (Some (mkDate 2010 7 16)) ;;
             insert_movie "The Godfather" (Some "Crime"%string)
               (Some 175) (Some (mkDate 1972 3 24)) ;;
             insert_association (Movie.movie_id movie1) (Room.room_id r)
         | None => raise FlushError
         end)
  | Some _ => ret tt
  end ;;
  commit.

(** [get_all_movies()] *)
Definition get_all_movies : M (list Movie.t) := read Movies.

(** [add_movie_orm(title, genre, duration, release_date)] *)
Definition add_movie_orm (title : string) (genre : option string)
    (duration : option Z) (release_date : option Date) : M Movie.t :=
  new_movie <- insert_movie title genre duration release_date ;;
  commit ;;
  ret new_movie.

(** [update_movie_orm(movie_id, title, genre, duration, release_date)].
    When [get] returns None the first assignment raises. *)
Definition update_movie_orm (movie_id : Z) (title : string)
    (genre : option string) (duration : option Z)
    (release_date : option Date) : M unit :=
  movie <- read (get_movie movie_id) ;;
  match movie with
  | None => raise AttributeError
  | Some m =>
      update_movie_row (Movie.movie_id m) title genre duration release_date ;;
      commit
  end.

(** [delete_movie_orm(movie_id)].  [session.delete(None)] raises.  For a
    movie, the flush of [session.commit()] loads [movie.rooms], deletes the
    association row of each room in it, then deletes the movie. *)
Definition delete_movie_orm (movie_id : Z) : M unit :=
  movie <- read (get_movie movie_id) ;;
  match movie with
  | None => raise UnmappedInstanceError
  | Some m =>
      rooms <- read (relationship_rooms (Movie.movie_id m)) ;;
      for_each rooms
        (fun r => delete_association_row (Movie.movie_id m) (Room.room_id r)) ;;
      delete_movie_row (Movie.movie_id m) ;;
      commit
  end.

(** SELECT Rooms.room_id, Rooms.room_number
    FROM Rooms JOIN movie_room_association
      ON Rooms.room_id = movie_room_association.room_id
    WHERE movie_room_association.movie_id = :movie_id *)
Definition select_movie_rooms (movie_id : Z) (d : Store) : list (Z * Z) :=
  flat_map
    (fun r =>
       flat_map
         (fun a =>
            if (Room.room_id r =? snd a) && (fst a =? movie_id)
            then [(Room.room_id r, Room.room_number r)]
            else [])
         (movie_room_association d))
    (Rooms d).

(** [fetch_movie_rooms(movie_id)] *)
Definition fetch_movie_rooms (movie_id : Z) : M (list (Z * Z)) :=
  read (select_movie_rooms movie_id).

(** [update_movie_rooms(movie_id, room_ids)] *)
Definition update_movie_rooms (movie_id : Z) (room_ids : list Z) : M unit :=
  delete_association_of_movie movie_id ;;
  for_each room_ids (fun room_id => insert_association movie_id room_id) ;;
  commit.

(** A row of Showtimes JOIN Movies JOIN Rooms. *)
Definition joined : Type := (Showtime.t * Movie.t * Room.t)%type.

(** FROM Showtimes
    JOIN Movies ON Showtimes.movie_id = Movies.movie_id
    JOIN Rooms ON Showtimes.room_id = Rooms.room_id *)
Definition report_from (d : Store) : list joined :=
  flat_map
    (fun sh =>
       flat_map
         (fun m =>
            if Showtime.movie_id sh =? Movie.movie_id m
            then
              flat_map
                (fun r =>
                   if Showtime.room_id sh =? Room.room_id r
                   then [(sh, m, r)]
                   else [])
                (Rooms d)
            else [])
         (Movies d))
    (Showtimes d).

(** The conditions of a WHERE clause, joined by AND. *)
Definition where_clause : Type := list (joined -> bool).

Definition satisfies (w : where_clause) (j : joined) : bool :=
  forallb (fun c => c j) w.

(** SELECT Movies.title, Showtimes.show_date, Showtimes.show_time,
           Rooms.room_number, Movies.duration *)
Definition report_columns (j : joined) : Report.t :=
  let '(sh, m, r) := j in
  Report.mk (Movie.title m) (Showtime.show_date sh) (Showtime.show_time sh)
            (Room.room_number r) (Movie.duration m).

Definition execute_report (w : where_clause) (d : Store) : list Report.t :=
  map report_columns (filter (satisfies w) (report_from d)).

(** [generate_report(start_date, end_date, room_id=None, movie_id=None)].
    [if room_id:] is false for None and for 0. *)
Definition generate_report (start_date end_date : Date)
    (room_id movie_id : option Z) : M (list Report.t) :=
  let base_query : where_clause :=
    [fun '(sh, _, _) => between (Showtime.show_date sh) start_date end_date] in
  let base_query :=
    match room_id with
    | Some x =>
        if x =? 0 then base_query
        else base_query ++ [fun '(_, _, r) => Room.room_id r =? x]
    | None => base_query
    end in
  let base_query :=
    match movie_id with
    | Some y =>
        if y =? 0 then base_query
        else base_query ++ [fun '(_, m, _) => Movie.movie_id m =? y]
    | None => base_query
    end in
  read (execute_report base_query).

(** ** Well-formed stores

    What the engine guarantees of every store it holds: the three keyed
    tables are in ascending key order (so keys are unique) and the
    association table holds no pair twice. *)

Definition ascending (ids : list Z) : Prop := StronglySorted Z.lt ids.

Record wf_store (d : Store) : Prop := mk_wf
  { wf_Movies : ascending (map Movie.movie_id (Movies d));
    wf_Rooms : ascending (map Room.room_id (Rooms d));
    wf_Showtimes : ascending (map Showtime.showtime_id (Showtimes d));
    wf_association : NoDup (movie_room_association d) }.

Definition wf_session (s : Session) : Prop :=
  wf_store (committed s) /\ wf_store (current s).

(** Referential integrity of the association table. *)
Definition referential_integrity (d : Store) : Prop :=
  forall a, In a (movie_room_association d) ->
    In (fst a) (map Movie.movie_id (Movies d))
    /\ In (snd a) (map Room.room_id (Rooms d)).

(** The store after the seed on an empty store. *)
Definition seeded_store : Store :=
  mkStore
    [Movie.mk 1 "Inception" (Some "Sci-Fi"%string) (Some 148)
       (Some (mkDate 2010 7 16));
     Movie.mk 2 "The Godfather" (Some "Crime"%string) (Some 175)
       (Some (mkDate 1972 3 24))]
    [Room.mk 1 1 (Some 3); Room.mk 2 2 (Some 2)]
    []
    [(1, 1)].

(** ** Invariants of the session

    [preserves P m]: whatever [m] does, returning or raising, it leaves a
    session that satisfies [P] when it started from one.  [intact]: the
    association table is referentially intact in the committed store and in
    the open transaction. *)

Definition preserves {A : Type} (P : Session -> Prop) (m : M A) : Prop :=
  forall s, P s -> P (fst (m s)).

Definition intact (s : Session) : Prop :=
  referential_integrity (committed s) /\ referential_integrity (current s).

(** One call of a function that writes, with any arguments, returning or
    raising; and the sessions that calls reach from the empty store. *)
Inductive step : Session -> Session -> Prop :=
| step_add_sample_data s :
    step s (fst (add_sample_data s))
| step_add_movie_orm s title genre duration release_date :
    step s (fst (add_movie_orm title genre duration release_date s))
| step_update_movie_orm s movie_id title genre duration release_date :
    step s (fst (update_movie_orm movie_id title genre duration release_date s))
| step_delete_movie_orm s movie_id :
    step s (fst (delete_movie_orm movie_id s))
| step_update_movie_rooms s movie_id room_ids :
    step s (fst (update_movie_rooms movie_id room_ids s)).

Inductive reachable : Session -> Prop :=
| reachable_start : reachable (open_session empty_store)
| reachable_step s s' : reachable s -> step s s' -> reachable s'.

(** ** Stores and sessions of the examples *)

(** The seeded store with one showtime of Inception in room 1. *)
Definition screening_store : Store :=
  mkStore (Movies seeded_store) (Rooms seeded_store)
    [Showtime.mk 1 1 1 (mkDate 2024 6 1) (mkTime 20 0 0)]
    (movie_room_association seeded_store).

(** The session after [update_movie_rooms(1, [1, 99])] on the seeded store:
    movie 1 is linked to room 1 and to a room 99 that does not exist. *)
Definition dangling_session : Session :=
  fst (update_movie_rooms 1 [1; 99] (open_session seeded_store)).

(** The session after [delete_movie_orm(1)] on it: the showtime stays and
    its movie is gone. *)
Definition orphaned_session : Session :=
  fst (delete_movie_orm 1 (open_session screening_store)).

(** ** A plan of the engine for the query of [fetch_movie_rooms]

    Without statistics SQLite drives the join from the primary-key index of
    the association table, which lists the rooms of a movie by ascending
    room id, and looks each room up in Rooms by its key. *)

Fixpoint insert_id (i : Z) (l : list Z) : list Z :=
  match l with
  | [] => [i]
  | j :: l' => if i <=? j then i :: l else j :: insert_id i l'
  end.

(** The room ids of a movie in the order of the index. *)
Definition index_room_ids (movie_id : Z) (d : Store) : list Z :=
  fold_right insert_id []
    (map snd (filter (fun a => fst a =? movie_id) (movie_room_association d))).

Definition select_movie_rooms_by_index (movie_id : Z) (d : Store)
    : list (Z * Z) :=
  flat_map
    (fun rid =>
       match get_room rid d with
       | Some r => [(Room.room_id r, Room.room_number r)]
       | None => []
       end)
    (index_room_ids movie_id d).

(** ** The order of the rows of [fetch_movie_rooms]

    The query has no ORDER BY: the order of its rows is the engine's.  With
    Rooms in the outer loop of the join, as in [select_movie_rooms], and
    with the plan above, the rows come by ascending room id.  With the
    association table in the outer loop, scanned in the order its rows were
    inserted, which SQLite chooses once the database has statistics, they
    come in the order the links were inserted. *)






(** ** What the functions compute, in the terms of the specification *)

(** The association table once the rows of a movie are deleted. *)
Definition without_movie (movie_id : Z) (l : list (Z * Z)) : list (Z * Z) :=
  filter (fun a => negb (fst a =? movie_id)) l.

(** The rows of one movie in the association table. *)
Definition association_of (movie_id : Z) (d : Store) : list (Z * Z) :=
  filter (fun a => fst a =? movie_id) (movie_room_association d).

(** Whether a filter argument lets a row with id [v] through: an argument
    that is None or 0 lets every row through. *)
Definition filter_applies (x : option Z) (v : Z) : bool :=
  match x with
  | Some i => (i =? 0) || (v =? i)
  | None => true
  end.

(** The report, showtime by showtime: the row of a showtime whose movie and
    room exist, whose date is in the range and which passes the two
    filters; nothing for any other showtime. *)
Definition report_row (d : Store) (start_date end_date : Date)
    (room_id movie_id : option Z) (sh : Showtime.t) : list Report.t :=
  match get_movie (Showtime.movie_id sh) d, get_room (Showtime.room_id sh) d with
  | Some m, Some r =>
      if between (Showtime.show_date sh) start_date end_date
         && filter_applies room_id (Showtime.room_id sh)
         && filter_applies movie_id (Showtime.movie_id sh)
      then [Report.mk (Movie.title m) (Showtime.show_date sh)
              (Showtime.show_time sh) (Room.room_number r) (Movie.duration m)]
      else []
  | _, _ => []
  end.

(** The WHERE clause that [generate_report] builds. *)
Definition report_where (start_date end_date : Date)
    (room_id movie_id : option Z) : where_clause :=
  let base_query : where_clause :=
    [fun '(sh, _, _) => between (Showtime.show_date sh) start_date end_date] in
  let base_query :=
    match room_id with
    | Some x =>
        if x =? 0 then base_query
        else base_query ++ [fun '(_, _, r) => Room.room_id r =? x]
    | None => base_query
    end in
  match movie_id with
  | Some y =>
      if y =? 0 then base_query
      else base_query ++ [fun '(_, m, _) => Movie.movie_id m =? y]
  | None => base_query
  end.

(** The rows of Movies after the UPDATE of one movie. *)
Definition updated_movies (movie_id : Z) (title : string)
    (genre : option string) (duration : option Z)
    (release_date : option Date) (l : list Movie.t) : list Movie.t :=
  map (fun m =>
         if Movie.movie_id m =? movie_id
         then Movie.mk movie_id title genre duration release_date
         else m)
      l.

(** ** The sentences of the specification that the program does not meet *)

(** The round trip as the specification words it: the replacement returns
    and the rooms read back are the ids given. *)
Definition replace_round_trip (s : Session) (movie_id : Z)
    (room_ids : list Z) : Prop :=
  exists s' rows,
    update_movie_rooms movie_id room_ids s = (s', Ok tt)
    /\ fetch_movie_rooms movie_id s' = (s', Ok rows)
    /\ forall r, In r (map fst rows) <-> In r room_ids.

(** The atomicity as the specification words it: after a replacement that
    raised, the session finds the rows of the movie as they were before the
    call. *)
Definition failure_keeps_association (s : Session) (movie_id : Z)
    (room_ids : list Z) : Prop :=
  forall s' e,
    update_movie_rooms movie_id room_ids s = (s', Raise e) ->
    association_of movie_id (current s') = association_of movie_id (current s)
    /\ fetch_movie_rooms movie_id s' = (s', snd (fetch_movie_rooms movie_id s)).

(** The deletion as the specification words it. *)
Definition delete_leaves_no_association (s : Session) (movie_id : Z) : Prop :=
  exists s',
    delete_movie_orm movie_id s = (s', Ok tt)
    /\ ~ In movie_id (map Movie.movie_id (Movies (current s')))
    /\ (forall r, ~ In (movie_id, r) (movie_room_association (current s')))
    /\ fetch_movie_rooms movie_id s' = (s', Ok []).

(** The report as the specification words it: it returns, it has a row for
    every showtime in the date range that matches the filters given, and
    no row of it is out of the range. *)
Definition filter_matches (x : option Z) (v : Z) : Prop :=
  match x with
  | Some i => v = i
  | None => True
  end.

Definition report_covers_showtimes (s : Session) (start_date end_date : Date)
    (room_id movie_id : option Z) : Prop :=
  exists rows,
    generate_report start_date end_date room_id movie_id s = (s, Ok rows)
    /\ (forall sh,
          In sh (Showtimes (current s)) ->
          between (Showtime.show_date sh) start_date end_date = true ->
          filter_matches room_id (Showtime.room_id sh) ->
          filter_matches movie_id (Showtime.movie_id sh) ->
          exists row,
            In row rows
            /\ Report.show_date row = Showtime.show_date sh
            /\ Report.show_time row = Showtime.show_time sh)
    /\ Forall
         (fun row => between (Report.show_date row) start_date end_date = true)
         rows.

(** ** The forms of the Streamlit app

    What the script does with the values of its widgets.  A widget value is
    an argument; [st.button] decides whether a handler runs at all. *)

(** A Python dict from titles to ids, as the list of its items in insertion
    order: a key set again keeps its place and takes the new value. *)
Fixpoint dict_set (k : string) (v : Z) (d : list (string * Z))
    : list (string * Z) :=
  match d with
  | [] => [(k, v)]
  | (k', v') :: d' =>
      if String.eqb k' k then (k, v) :: d' else (k', v') :: dict_set k v d'
  end.

Fixpoint dict_get (k : string) (d : list (string * Z)) : option Z :=
  match d with
  | [] => None
  | (k', v') :: d' => if String.eqb k' k then Some v' else dict_get k d'
  end.

(** [{movie.title: movie.movie_id for movie in movies}] *)
Definition movie_options (movies : list Movie.t) : list (string * Z) :=
  fold_left (fun d movie => dict_set (Movie.title movie) (Movie.movie_id movie) d)
    movies [].

(** [[(room.room_id, room.room_number) for room in all_rooms]] *)
Definition room_options (all_rooms : list Room.t) : list (Z * Z) :=
  map (fun room => (Room.room_id room, Room.room_number room)) all_rooms.

(** [[room_id for room_id, _ in selected_rooms]] *)
Definition room_ids_of (selected_rooms : list (Z * Z)) : list Z :=
  map fst selected_rooms.

(** The handler of "Update Movie". *)
Definition update_movie_button (movie_id : Z) (title : string)
    (genre : option string) (duration : option Z)
    (release_date : option Date) (room_ids : list Z) : M unit :=
  update_movie_orm movie_id title genre duration release_date ;;
  update_movie_rooms movie_id room_ids.

(** The handler of "Delete Movie". *)
Definition delete_movie_button (movie_id : Z) : M unit :=
  delete_movie_orm movie_id.

(** The handler of "Add Movie". *)
Definition add_movie_button (new_title : string) (new_genre : option string)
    (new_duration : option Z) (new_release_date : option Date)
    (room_ids : list Z) : M unit :=
  new_movie <- add_movie_orm new_title new_genre new_duration
                 new_release_date ;;
  update_movie_rooms (Movie.movie_id new_movie) room_ids.

(** [next((room.room_id for room in rooms
           if room.room_number == selected_room), None)] *)
Definition selected_room_id (rooms : list Room.t) (selected_room : option Z)
    : option Z :=
  match selected_room with
  | Some n =>
      option_map Room.room_id
        (find (fun room => Room.room_number room =? n) rooms)
  | None => None
  end.

(** [next((movie.movie_id for movie in movies
           if movie.title == selected_movie), None)] *)
Definition selected_movie_id (movies : list Movie.t)
    (selected_movie : option string) : option Z :=
  match selected_movie with
  | Some t =>
      option_map Movie.movie_id
        (find (fun movie => String.eqb (Movie.title movie) t) movies)
  | None => None
  end.

(** The handler of "Generate Report", up to the report it then displays. *)
Definition generate_report_button (selected_room : option Z)
    (selected_movie : option string) (start_date end_date : Date)
    : M (list Report.t) :=
  rooms <- read Rooms ;;
  movies <- read Movies ;;
  let room_id := selected_room_id rooms selected_room in
  let movie_id := selected_movie_id movies selected_movie in
  generate_report start_date end_date room_id movie_id.

(** The seeded store with a showtime that still references a movie 3,
    which is not, or no longer, in the table. *)
Definition leftover_store : Store :=
  mkStore (Movies seeded_store) (Rooms seeded_store)
    [Showtime.mk 1 3 1 (mkDate 2024 6 1) (mkTime 20 0 0)]
    (movie_room_association seeded_store).

(** A store with two movies of one title, each with a showtime. *)
Definition twin_store : Store :=
  mkStore
    [Movie.mk 1 "Dune" None (Some 137) None;
     Movie.mk 2 "Dune" None (Some 155) None]
    (Rooms seeded_store)
    [Showtime.mk 1 1 1 (mkDate 2024 6 1) (mkTime 18 0 0);
     Showtime.mk 2 2 2 (mkDate 2024 6 1) (mkTime 20 0 0)]
    [].

(** A call settles when it either returns with nothing left uncommitted in
    the session, or raises without having committed anything. *)
Definition settles {A : Type} (m : M A) (s : Session) : Prop :=
  (exists a, snd (m s) = Ok a /\ committed (fst (m s)) = current (fst (m s)))
  \/ (exists e, snd (m s) = Raise e /\ committed (fst (m s)) = committed s).

(** One use of a form: the seed button, or a handler run with the values
    its widgets can hold (a movie of the select box, rooms among the
    options of the multiselect); and the sessions the forms reach from the
    empty store. *)
Inductive form_step : Session -> Session -> Prop :=
| form_seed s :
    form_step s (fst (add_sample_data s))
| form_add s title genre duration release_date selected_rooms :
    incl selected_rooms (room_options (Rooms (current s))) ->
    form_step s
      (fst (add_movie_button title genre duration release_date
              (room_ids_of selected_rooms) s))
| form_update s movie_id title genre duration release_date selected_rooms :
    In movie_id (map Movie.movie_id (Movies (current s))) ->
    incl selected_rooms (room_options (Rooms (current s))) ->
    form_step s
      (fst (update_movie_button movie_id title genre duration release_date
              (room_ids_of selected_rooms) s))
| form_delete s movie_id :
    In movie_id (map Movie.movie_id (Movies (current s))) ->
    form_step s (fst (delete_movie_button movie_id s)).

Inductive form_reachable : Session -> Prop :=
| form_reachable_start : form_reachable (open_session empty_store)
| form_reachable_step s s' :
    form_reachable s -> form_step s s' -> form_reachable s'.


(** * Lemmas *)

(** ** Lists, keys and lookups *)

Lemma pair_eqb_eq (a b : Z * Z) : pair_eqb a b = true <-> a = b.
Proof.
  destruct a as [a1 a2], b as [b1 b2]; unfold pair_eqb; simpl.
  rewrite andb_true_iff, !Z.eqb_eq.
  split; [intros [-> ->]; reflexivity | intros [= -> ->]; auto].
Qed.

Lemma existsb_pair_In (a : Z * Z) (l : list (Z * Z)) :
  existsb (pair_eqb a) l = true <-> In a l.
Proof.
  rewrite existsb_exists; split.
  - intros [b [Hb Heq]]. apply pair_eqb_eq in Heq. now subst.
  - intros H. exists a. split; [assumption | now apply pair_eqb_eq].
Qed.

Lemma existsb_pair_not_In (a : Z * Z) (l : list (Z * Z)) :
  existsb (pair_eqb a) l = false <-> ~ In a l.
Proof.
  rewrite <- existsb_pair_In. destruct (existsb (pair_eqb a) l); intuition congruence.
Qed.

Lemma ascending_NoDup (ids : list Z) : ascending ids -> NoDup ids.
Proof.
  induction 1 as [| i ids _ IH Hlt]; constructor; auto.
  intros Hin. rewrite Forall_forall in Hlt. specialize (Hlt _ Hin). lia.
Qed.

Lemma fold_left_max_ge (l : list Z) (i : Z) :
  i <= fold_left Z.max l i /\ Forall (fun j => j <= fold_left Z.max l i) l.
Proof.
  revert i; induction l as [| j l IH]; intros i; simpl.
  - split; [lia | constructor].
  - destruct (IH (Z.max i j)) as [H1 H2]. split; [lia |].
    constructor; [lia | assumption].
Qed.

Lemma next_rowid_above (ids : list Z) : Forall (fun i => i < next_rowid ids) ids.
Proof.
  destruct ids as [| i ids]; simpl; [constructor |].
  destruct (fold_left_max_ge ids i) as [H1 H2].
  constructor; [lia |].
  eapply Forall_impl; [| exact H2]. simpl; intros; lia.
Qed.

Lemma ascending_snoc (ids : list Z) (k : Z) :
  ascending ids -> Forall (fun i => i < k) ids -> ascending (ids ++ [k]).
Proof.
  unfold ascending. induction 1 as [| i ids Hs IH Hlt]; intros Hk; simpl.
  - repeat constructor.
  - inversion Hk; subst. constructor; [auto |].
    apply Forall_app; split; [assumption | repeat constructor; assumption].
Qed.

Lemma ascending_filter {A : Type} (key : A -> Z) (p : A -> bool) (l : list A) :
  ascending (map key l) -> ascending (map key (filter p l)).
Proof.
  unfold ascending. induction l as [| a l IH]; simpl; intros H; [constructor |].
  inversion H as [| ? ? Hs Hlt]; subst.
  destruct (p a); simpl; [constructor |]; auto.
  rewrite Forall_forall in *. intros k Hk. apply Hlt.
  rewrite in_map_iff in *. destruct Hk as [x [Hx Hin]].
  exists x. split; [assumption |]. apply filter_In in Hin. tauto.
Qed.

(** A lookup by key misses exactly when the key is not in the table. *)
Lemma find_key_None {A : Type} (key : A -> Z) (k : Z) (l : list A) :
  find (fun a => key a =? k) l = None <-> ~ In k (map key l).
Proof.
  induction l as [| a l IH]; simpl; [tauto |].
  destruct (Z.eqb_spec (key a) k) as [-> | Hne].
  - split; [discriminate | intros H; exfalso; apply H; now left].
  - rewrite IH. tauto.
Qed.

Lemma find_key_Some {A : Type} (key : A -> Z) (k : Z) (l : list A) (a : A) :
  find (fun a => key a =? k) l = Some a -> In a l /\ key a = k.
Proof.
  intros H. apply find_some in H. rewrite Z.eqb_eq in H. exact H.
Qed.

(** A join on a unique key is a lookup. *)
Lemma flat_map_key {A B : Type} (key : A -> Z) (k : Z) (f : A -> list B)
    (l : list A) :
  NoDup (map key l) ->
  flat_map (fun a => if k =? key a then f a else []) l
  = match find (fun a => key a =? k) l with
    | Some a => f a
    | None => []
    end.
Proof.
  induction l as [| a l IH]; simpl; intros Hnd; [reflexivity |].
  inversion Hnd as [| ? ? Hnotin Hnd']; subst.
  rewrite (Z.eqb_sym k (key a)).
  destruct (Z.eqb_spec (key a) k) as [Heq | Hne].
  - subst k.
    assert (Hnone : find (fun x => key x =? key a) l = None)
      by (now apply find_key_None).
    rewrite IH, Hnone, app_nil_r by assumption. reflexivity.
  - simpl. now apply IH.
Qed.

(** ** The statements on the association table *)

Lemma with_association_twice (d : Store) (l l' : list (Z * Z)) :
  with_association (with_association d l) l' = with_association d l'.
Proof. reflexivity. Qed.

Lemma with_association_same (d : Store) :
  with_association d (movie_room_association d) = d.
Proof. now destruct d. Qed.

Lemma session_eta (s : Session) : mkSession (committed s) (current s) = s.
Proof. now destruct s. Qed.

(** The inserts of the loop all succeed when the ids are distinct and none
    of the pairs is in the table. *)
Lemma for_each_insert_fresh (movie_id : Z) (room_ids : list Z) (s : Session) :
  NoDup room_ids ->
  (forall r, In r room_ids ->
     ~ In (movie_id, r) (movie_room_association (current s))) ->
  for_each room_ids (fun room_id => insert_association movie_id room_id) s
  = (mkSession (committed s)
       (with_association (current s)
          (movie_room_association (current s) ++ map (pair movie_id) room_ids)),
     Ok tt).
Proof.
  revert s. induction room_ids as [| r l IH]; intros s Hnd Hfresh; simpl.
  - unfold ret. now rewrite app_nil_r, with_association_same, session_eta.
  - inversion Hnd as [| ? ? Hr Hnd']; subst.
    unfold bind at 1. unfold insert_association at 1.
    assert (Hex : existsb (pair_eqb (movie_id, r))
                    (movie_room_association (current s)) = false).
    { apply existsb_pair_not_In. apply Hfresh. now left. }
    rewrite Hex. rewrite IH; simpl; auto.
    + now rewrite with_association_twice, <- app_assoc.
    + intros r' Hr' Hin. apply in_app_or in Hin. destruct Hin as [Hin | Hin].
      * apply (Hfresh r'); [now right | assumption].
      * simpl in Hin. destruct Hin as [[= ->] | []]. contradiction.
Qed.

(** When the loop raises, it raises on a pair that is already there: the
    inserts before it stay in the open transaction and nothing is
    committed. *)
Lemma for_each_insert_raises (movie_id : Z) (room_ids : list Z)
    (s s' : Session) (e : error) :
  for_each room_ids (fun room_id => insert_association movie_id room_id) s
  = (s', Raise e) ->
  e = IntegrityError
  /\ exists done r rest,
       room_ids = done ++ r :: rest
       /\ In (movie_id, r)
            (movie_room_association (current s) ++ map (pair movie_id) done)
       /\ s' = mkSession (committed s)
                 (with_association (current s)
                    (movie_room_association (current s)
                     ++ map (pair movie_id) done)).
Proof.
  revert s. induction room_ids as [| r l IH]; intros s H; simpl in H.
  - discriminate.
  - unfold bind at 1 in H. unfold insert_association at 1 in H.
    destruct (existsb (pair_eqb (movie_id, r))
                (movie_room_association (current s))) eqn:Hex.
    + injection H as <- <-. split; [reflexivity |].
      exists [], r, l. simpl. rewrite app_nil_r.
      apply existsb_pair_In in Hex.
      now rewrite with_association_same, session_eta.
    + apply IH in H. destruct H as [He [done [r' [rest [Hl [Hin Hs']]]]]].
      split; [assumption |].
      exists (r :: done), r', rest. simpl in *.
      rewrite <- app_assoc in Hin, Hs'. simpl in Hin, Hs'.
      repeat split; [now rewrite Hl | assumption | assumption].
Qed.

Lemma without_movie_In (movie_id : Z) (l : list (Z * Z)) (a : Z * Z) :
  In a (without_movie movie_id l) <-> In a l /\ fst a <> movie_id.
Proof.
  unfold without_movie. rewrite filter_In, negb_true_iff, Z.eqb_neq. tauto.
Qed.

Lemma without_movie_idem (movie_id : Z) (l : list (Z * Z)) (room_ids : list Z) :
  without_movie movie_id (without_movie movie_id l ++ map (pair movie_id) room_ids)
  = without_movie movie_id l.
Proof.
  unfold without_movie. rewrite filter_app.
  assert (H1 : forall l0 : list (Z * Z),
             filter (fun a => negb (fst a =? movie_id))
               (filter (fun a => negb (fst a =? movie_id)) l0)
             = filter (fun a => negb (fst a =? movie_id)) l0).
  { induction l0 as [| a l0 IH]; simpl; [reflexivity |].
    destruct (negb (fst a =? movie_id)) eqn:E; simpl; rewrite ?E, IH; reflexivity. }
  assert (H2 : filter (fun a => negb (fst a =? movie_id))
                 (map (pair movie_id) room_ids) = []).
  { induction room_ids as [| r rs IH]; simpl; [reflexivity |].
    now rewrite Z.eqb_refl. }
  now rewrite H1, H2, app_nil_r.
Qed.

(** [update_movie_rooms] with distinct room ids: it succeeds, whatever the
    ids are and whatever the table held. *)
Lemma update_movie_rooms_distinct (movie_id : Z) (room_ids : list Z)
    (s : Session) :
  NoDup room_ids ->
  let d :=
    with_association (current s)
      (without_movie movie_id (movie_room_association (current s))
       ++ map (pair movie_id) room_ids) in
  update_movie_rooms movie_id room_ids s = (mkSession d d, Ok tt).
Proof.
  intros Hnd d. unfold update_movie_rooms.
  unfold bind at 1. unfold delete_association_of_movie, modify.
  unfold bind at 1. rewrite for_each_insert_fresh; simpl; auto.
  intros r _ Hin. apply without_movie_In in Hin. simpl in Hin. tauto.
Qed.

(** [update_movie_rooms] that raises. *)
Lemma update_movie_rooms_raises (movie_id : Z) (room_ids : list Z)
    (s s' : Session) (e : error) :
  update_movie_rooms movie_id room_ids s = (s', Raise e) ->
  e = IntegrityError
  /\ exists done r rest,
       room_ids = done ++ r :: rest
       /\ In r done
       /\ s' = mkSession (committed s)
                 (with_association (current s)
                    (without_movie movie_id
                       (movie_room_association (current s))
                     ++ map (pair movie_id) done)).
Proof.
  unfold update_movie_rooms. unfold bind at 1.
  unfold delete_association_of_movie, modify. unfold bind at 1.
  match goal with
  | |- context [for_each ?l ?f ?s0] => destruct (for_each l f s0) as [s1 [[] | e1]] eqn:Hloop
  end.
  - discriminate.
  - intros [= <- <-]. apply for_each_insert_raises in Hloop.
    destruct Hloop as [He [done [r [rest [Hl [Hin Hs1]]]]]].
    split; [assumption |]. exists done, r, rest. simpl in *.
    repeat split; [assumption | | assumption].
    apply in_app_or in Hin. destruct Hin as [Hin | Hin].
    + apply without_movie_In in Hin. simpl in Hin. tauto.
    + apply in_map_iff in Hin. destruct Hin as [x [[= ->] Hx]]. assumption.
Qed.

(** ** The query of [fetch_movie_rooms] *)

Lemma select_movie_rooms_In (movie_id : Z) (d : Store) (rid num : Z) :
  In (rid, num) (select_movie_rooms movie_id d)
  <-> In (movie_id, rid) (movie_room_association d)
      /\ exists r, In r (Rooms d)
                   /\ Room.room_id r = rid /\ Room.room_number r = num.
Proof.
  unfold select_movie_rooms. rewrite in_flat_map. split.
  - intros [r [Hr Hin]]. apply in_flat_map in Hin.
    destruct Hin as [[m r'] [Ha Hin]]. simpl in Hin.
    destruct (Z.eqb_spec (Room.room_id r) r'); simpl in Hin; [| contradiction].
    destruct (Z.eqb_spec m movie_id); simpl in Hin; [| contradiction].
    destruct Hin as [[= <- <-] | []]. subst.
    split; [assumption | exists r; auto].
  - intros [Ha [r [Hr [<- <-]]]]. exists r. split; [assumption |].
    apply in_flat_map. exists (movie_id, Room.room_id r).
    split; [assumption |]. simpl. rewrite !Z.eqb_refl. simpl. now left.
Qed.

(** With no pair twice in the table, the inner loop of the join finds at
    most one row per room. *)
Lemma join_association_row {B : Type} (movie_id rid : Z) (x : B)
    (l : list (Z * Z)) :
  NoDup l ->
  flat_map (fun a => if (rid =? snd a) && (fst a =? movie_id) then [x] else []) l
  = if existsb (pair_eqb (movie_id, rid)) l then [x] else [].
Proof.
  induction l as [| [m r] l IH]; simpl; intros Hnd; [reflexivity |].
  inversion Hnd as [| ? ? Hnotin Hnd']; subst.
  unfold pair_eqb at 1; simpl.
  rewrite (Z.eqb_sym movie_id m), (Z.eqb_sym rid r), (andb_comm (m =? movie_id)).
  destruct ((r =? rid) && (m =? movie_id)) eqn:E; simpl.
  - apply andb_true_iff in E. rewrite !Z.eqb_eq in E. destruct E; subst.
    rewrite IH by assumption.
    apply existsb_pair_not_In in Hnotin. now rewrite Hnotin.
  - now apply IH.
Qed.

Lemma select_movie_rooms_lookup (movie_id : Z) (d : Store) :
  NoDup (movie_room_association d) ->
  select_movie_rooms movie_id d
  = map (fun r => (Room.room_id r, Room.room_number r))
      (filter (fun r => existsb (pair_eqb (movie_id, Room.room_id r))
                          (movie_room_association d))
              (Rooms d)).
Proof.
  intros Hnd. unfold select_movie_rooms.
  induction (Rooms d) as [| r l IH]; simpl; [reflexivity |].
  rewrite join_association_row by assumption.
  destruct (existsb (pair_eqb (movie_id, Room.room_id r))
              (movie_room_association d)); simpl; now rewrite IH.
Qed.

Lemma select_movie_rooms_ascending (movie_id : Z) (d : Store) :
  wf_store d -> ascending (map fst (select_movie_rooms movie_id d)).
Proof.
  intros [_ Hrooms _ Hnd]. rewrite select_movie_rooms_lookup by assumption.
  rewrite map_map. simpl. now apply ascending_filter.
Qed.

Lemma select_movie_rooms_deleted (movie_id : Z) (d : Store) :
  (forall r, In (movie_id, r) (movie_room_association d) ->
     ~ In r (map Room.room_id (Rooms d))) ->
  select_movie_rooms movie_id d = [].
Proof.
  intros H. destruct (select_movie_rooms movie_id d) as [| [rid num] l] eqn:E;
    [reflexivity | exfalso].
  assert (Hin : In (rid, num) (select_movie_rooms movie_id d))
    by (rewrite E; now left).
  apply select_movie_rooms_In in Hin. destruct Hin as [Ha [r [Hr [Hid _]]]].
  apply (H rid Ha). subst rid. now apply in_map.
Qed.

(** ** Preservation of an invariant by the session monad *)

Section Preservation.

Variable P : Session -> Prop.

Lemma preserves_ret {A : Type} (a : A) : preserves P (ret a).
Proof. intros s H. exact H. Qed.

Lemma preserves_raise {A : Type} (e : error) : preserves P (@raise A e).
Proof. intros s H. exact H. Qed.

Lemma preserves_read {A : Type} (q : Store -> A) : preserves P (read q).
Proof. intros s H. exact H. Qed.

Lemma preserves_bind {A B : Type} (m : M A) (k : A -> M B) :
  preserves P m -> (forall a, preserves P (k a)) -> preserves P (bind m k).
Proof.
  intros Hm Hk s H. unfold bind. specialize (Hm s H).
  destruct (m s) as [s' [a | e]]; simpl in *; [now apply Hk | assumption].
Qed.

Lemma preserves_for_each {A : Type} (l : list A) (body : A -> M unit) :
  (forall x, preserves P (body x)) -> preserves P (for_each l body).
Proof.
  intros Hbody. induction l as [| x l IH]; simpl.
  - apply preserves_ret.
  - apply preserves_bind; [apply Hbody | intros _; exact IH].
Qed.

End Preservation.

Lemma wf_with_association (d : Store) (l : list (Z * Z)) :
  wf_store d -> NoDup l -> wf_store (with_association d l).
Proof. intros [H1 H2 H3 _] Hl. now constructor. Qed.

Lemma wf_with_Movies (d : Store) (l : list Movie.t) :
  wf_store d -> ascending (map Movie.movie_id l) -> wf_store (with_Movies d l).
Proof. intros [_ H2 H3 H4] Hl. now constructor. Qed.

Lemma wf_with_Rooms (d : Store) (l : list Room.t) :
  wf_store d -> ascending (map Room.room_id l) -> wf_store (with_Rooms d l).
Proof. intros [H1 _ H3 H4] Hl. now constructor. Qed.

Lemma wf_modify (f : Store -> Store) :
  (forall d, wf_store d -> wf_store (f d)) -> preserves wf_session (modify f).
Proof. intros Hf s [Hc Hd]. split; simpl; auto. Qed.

Lemma wf_commit : preserves wf_session commit.
Proof. intros s [_ Hd]. split; assumption. Qed.

Lemma wf_flushing {A : Type} (m : M A) :
  preserves wf_session m -> preserves wf_session (flushing m).
Proof.
  intros Hm s H. specialize (Hm s H). unfold flushing.
  destruct (m s) as [s' [a | e]]; simpl in *; [assumption |].
  destruct Hm as [Hc _]. split; assumption.
Qed.

Lemma wf_insert_room (n : Z) (c : option Z) :
  preserves wf_session (insert_room n c).
Proof.
  intros s [Hc Hd]. split; simpl; [assumption |].
  apply wf_with_Rooms; [assumption |].
  rewrite map_app. simpl. apply ascending_snoc.
  - apply Hd.
  - apply next_rowid_above.
Qed.

Lemma wf_insert_movie (t : string) (g : option string) (n : option Z)
    (r : option Date) :
  preserves wf_session (insert_movie t g n r).
Proof.
  intros s [Hc Hd]. split; simpl; [assumption |].
  apply wf_with_Movies; [assumption |].
  rewrite map_app. simpl. apply ascending_snoc.
  - apply Hd.
  - apply next_rowid_above.
Qed.

Lemma wf_update_movie_row (movie_id : Z) (t : string) (g : option string)
    (n : option Z) (r : option Date) :
  preserves wf_session (update_movie_row movie_id t g n r).
Proof.
  apply wf_modify. intros d Hd. apply wf_with_Movies; [assumption |].
  rewrite map_map.
  erewrite map_ext; [apply Hd |].
  intros m. simpl. destruct (Z.eqb_spec (Movie.movie_id m) movie_id); simpl; congruence.
Qed.

Lemma wf_delete_movie_row (movie_id : Z) :
  preserves wf_session (delete_movie_row movie_id).
Proof.
  apply wf_modify. intros d Hd. apply wf_with_Movies; [assumption |].
  apply ascending_filter, Hd.
Qed.

Lemma wf_delete_association_of_movie (movie_id : Z) :
  preserves wf_session (delete_association_of_movie movie_id).
Proof.
  apply wf_modify. intros d Hd. apply wf_with_association; [assumption |].
  apply NoDup_filter, Hd.
Qed.

Lemma wf_delete_association_row (movie_id room_id : Z) :
  preserves wf_session (delete_association_row movie_id room_id).
Proof.
  apply wf_modify. intros d Hd. apply wf_with_association; [assumption |].
  apply NoDup_filter, Hd.
Qed.

Lemma wf_insert_association (movie_id room_id : Z) :
  preserves wf_session (insert_association movie_id room_id).
Proof.
  intros s [Hc Hd]. unfold insert_association.
  destruct (existsb (pair_eqb (movie_id, room_id))
              (movie_room_association (current s))) eqn:Hex; simpl.
  - split; assumption.
  - split; simpl; [assumption |].
    apply wf_with_association; [assumption |].
    apply existsb_pair_not_In in Hex.
    apply NoDup_app; repeat split.
    + apply Hd.
    + repeat constructor. simpl. tauto.
    + intros a Ha [<- | []]. contradiction.
Qed.

Create HintDb session discriminated.

#[local] Hint Resolve preserves_ret preserves_raise preserves_read
  preserves_bind preserves_for_each wf_commit wf_flushing wf_insert_room
  wf_insert_movie wf_update_movie_row wf_delete_movie_row
  wf_delete_association_of_movie wf_delete_association_row
  wf_insert_association : session.

Ltac preserved :=
  repeat (first
    [ progress (intros)
    | apply preserves_bind
    | apply preserves_for_each
    | apply wf_flushing
    | match goal with |- preserves _ (match ?x with _ => _ end) => destruct x end
    | solve [auto with session] ]).

(** Every function of the program that writes keeps the session
    well-formed, whether it returns or raises. *)
Lemma wf_add_sample_data : preserves wf_session add_sample_data.
Proof. unfold add_sample_data. preserved. Qed.

Lemma wf_add_movie_orm (t : string) (g : option string) (n : option Z)
    (r : option Date) :
  preserves wf_session (add_movie_orm t g n r).
Proof. unfold add_movie_orm. preserved. Qed.

Lemma wf_update_movie_orm (movie_id : Z) (t : string) (g : option string)
    (n : option Z) (r : option Date) :
  preserves wf_session (update_movie_orm movie_id t g n r).
Proof. unfold update_movie_orm. preserved. Qed.

Lemma wf_delete_movie_orm (movie_id : Z) :
  preserves wf_session (delete_movie_orm movie_id).
Proof. unfold delete_movie_orm. preserved. Qed.

Lemma wf_update_movie_rooms (movie_id : Z) (room_ids : list Z) :
  preserves wf_session (update_movie_rooms movie_id room_ids).
Proof. unfold update_movie_rooms. preserved. Qed.

Lemma wf_open_empty : wf_session (open_session empty_store).
Proof. split; constructor; constructor. Qed.

(** Every session the program reaches is well-formed. *)
Lemma reachable_wf (s : Session) : reachable s -> wf_session s.
Proof.
  induction 1 as [| s s' _ IH Hstep]; [apply wf_open_empty |].
  destruct Hstep.
  - now apply wf_add_sample_data.
  - now apply wf_add_movie_orm.
  - now apply wf_update_movie_orm.
  - now apply wf_delete_movie_orm.
  - now apply wf_update_movie_rooms.
Qed.

Lemma reachable_seeded : reachable (open_session seeded_store).
Proof.
  apply (reachable_step (open_session empty_store)); [constructor |].
  change (open_session seeded_store)
    with (fst (add_sample_data (open_session empty_store))).
  constructor.
Qed.

Lemma NoDup_replaced (movie_id : Z) (l : list (Z * Z)) (room_ids : list Z) :
  NoDup l -> NoDup room_ids ->
  NoDup (without_movie movie_id l ++ map (pair movie_id) room_ids).
Proof.
  intros Hl Hr. apply NoDup_app; repeat split.
  - now apply NoDup_filter.
  - clear Hl. induction Hr as [| r rs Hr _ IH]; simpl; constructor; auto.
    rewrite in_map_iff. intros [x [[= ->] Hx]]. contradiction.
  - intros a Ha Hin. apply without_movie_In in Ha.
    apply in_map_iff in Hin. destruct Hin as [r [<- _]]. simpl in Ha. tauto.
Qed.

Lemma wf_seeded_store : wf_store seeded_store.
Proof.
  constructor; simpl; unfold ascending;
    repeat (constructor; simpl; try lia; try tauto).
Qed.

(** ** The seed *)

(** A seed is a commit and nothing else once both tables have a row. *)
Lemma add_sample_data_seeded (s : Session) :
  Rooms (current s) <> [] -> Movies (current s) <> [] ->
  add_sample_data s = (mkSession (current s) (current s), Ok tt).
Proof.
  destruct s as [c [ms rs sh ass]]; simpl. intros Hr Hm.
  destruct rs; [contradiction |]. destruct ms; [contradiction |]. reflexivity.
Qed.

(** A seed that returns leaves a row in both tables and everything
    committed. *)
Lemma add_sample_data_returns (s s' : Session) :
  add_sample_data s = (s', Ok tt) ->
  Rooms (current s') <> [] /\ Movies (current s') <> []
  /\ committed s' = current s'.
Proof.
  destruct s as [c [ms rs sh ass]].
  unfold add_sample_data, bind, read, flushing, commit, insert_room,
    insert_movie, insert_association, raise, ret, get_room.
  destruct rs as [| r rs]; destruct ms as [| m ms]; cbn [current committed
    Rooms Movies movie_room_association hd_error with_Rooms with_Movies
    with_association app fst snd].
  - cbn [find map next_rowid Room.room_id Z.eqb Z.add Pos.eqb].
    cbn.
    destruct (existsb _ ass); intros [= <-]; cbn; repeat split; discriminate.
  - intros [= <-]; cbn; repeat split; discriminate.
  - destruct (find _ (r :: rs)) as [r1 |]; [| discriminate]. cbn.
    destruct (existsb _ ass); intros [= <-]; cbn; repeat split; discriminate.
  - intros [= <-]; cbn; repeat split; discriminate.
Qed.

(** After a seed that returned, a further seed changes nothing. *)
Lemma add_sample_data_again (s s' : Session) :
  add_sample_data s = (s', Ok tt) -> add_sample_data s' = (s', Ok tt).
Proof.
  intros H. apply add_sample_data_returns in H. destruct H as [Hr [Hm Hc]].
  rewrite add_sample_data_seeded by assumption.
  destruct s' as [c d]. simpl in *. now subst.
Qed.

(** ** The deletion of a movie *)

Lemma filter_twice {A : Type} (p q : A -> bool) (l : list A) :
  filter p (filter q l) = filter (fun x => q x && p x) l.
Proof.
  induction l as [| a l IH]; simpl; [reflexivity |].
  destruct (q a); simpl; [destruct (p a) |]; now rewrite IH.
Qed.

Lemma filter_all {A : Type} (l : list A) : filter (fun _ => true) l = l.
Proof. induction l as [| a l IH]; simpl; now rewrite ?IH. Qed.

(** The loop of deletes over the loaded collection. *)
Lemma for_each_delete_rows (movie_id : Z) (rooms : list Room.t) (s : Session) :
  for_each rooms
    (fun r => delete_association_row movie_id (Room.room_id r)) s
  = (mkSession (committed s)
       (with_association (current s)
          (filter
             (fun a =>
                forallb
                  (fun r => negb (pair_eqb a (movie_id, Room.room_id r)))
                  rooms)
             (movie_room_association (current s)))),
     Ok tt).
Proof.
  revert s. induction rooms as [| r rooms IH]; intros s; simpl.
  - unfold ret. now rewrite filter_all, with_association_same, session_eta.
  - unfold bind at 1. unfold delete_association_row at 1, modify.
    rewrite IH. simpl. now rewrite with_association_twice, filter_twice.
Qed.

(** Which rows the loop keeps: all but those of the movie whose room
    exists. *)
Lemma kept_by_delete (movie_id : Z) (d : Store) (a : Z * Z) :
  In a (movie_room_association d) ->
  forallb (fun r => negb (pair_eqb a (movie_id, Room.room_id r)))
    (relationship_rooms movie_id d) = true
  <-> ~ (fst a = movie_id /\ In (snd a) (map Room.room_id (Rooms d))).
Proof.
  intros Ha. rewrite forallb_forall. unfold relationship_rooms. split.
  - intros H [Hfst Hsnd]. apply in_map_iff in Hsnd.
    destruct Hsnd as [r [Hid Hr]].
    assert (Hin : In r (filter
                          (fun r0 => existsb
                             (fun a0 => (fst a0 =? movie_id)
                                        && (snd a0 =? Room.room_id r0))
                             (movie_room_association d))
                          (Rooms d))).
    { apply filter_In. split; [assumption |]. apply existsb_exists.
      exists a. split; [assumption |]. rewrite Hfst, Hid, !Z.eqb_refl. reflexivity. }
    specialize (H r Hin). apply negb_true_iff in H.
    assert (Heq : pair_eqb a (movie_id, Room.room_id r) = true).
    { apply pair_eqb_eq. destruct a; simpl in *; congruence. }
    congruence.
  - intros H r Hr. apply filter_In in Hr. destruct Hr as [Hr _].
    apply negb_true_iff. destruct (pair_eqb a (movie_id, Room.room_id r)) eqn:E;
      [| reflexivity].
    apply pair_eqb_eq in E. exfalso. apply H. subst a. simpl.
    split; [reflexivity | now apply in_map].
Qed.

(** What [delete_movie_orm] does for a movie that is present: it returns
    and commits; the Movie row is gone, Rooms and Showtimes are untouched;
    of the association rows exactly those of the movie whose room exists
    are gone. *)
Lemma delete_movie_orm_result (s : Session) (movie_id : Z) :
  In movie_id (map Movie.movie_id (Movies (current s))) ->
  exists s',
    delete_movie_orm movie_id s = (s', Ok tt)
    /\ committed s' = current s'
    /\ Movies (current s')
       = filter (fun m => negb (Movie.movie_id m =? movie_id))
           (Movies (current s))
    /\ Rooms (current s') = Rooms (current s)
    /\ Showtimes (current s') = Showtimes (current s)
    /\ (forall a,
          In a (movie_room_association (current s'))
          <-> In a (movie_room_association (current s))
              /\ ~ (fst a = movie_id
                    /\ In (snd a) (map Room.room_id (Rooms (current s))))).
Proof.
  intros Hpresent.
  set (kept := filter
                 (fun a =>
                    forallb
                      (fun r => negb (pair_eqb a (movie_id, Room.room_id r)))
                      (relationship_rooms movie_id (current s)))
                 (movie_room_association (current s))).
  set (d := with_Movies (with_association (current s) kept)
              (filter (fun m0 => negb (Movie.movie_id m0 =? movie_id))
                 (Movies (current s)))).
  exists (mkSession d d).
  split.
  { unfold delete_movie_orm, bind at 1, read at 1.
    destruct (get_movie movie_id (current s)) as [m |] eqn:Hget.
    2:{ apply find_key_None in Hget. contradiction. }
    apply find_key_Some in Hget. destruct Hget as [_ ->].
    unfold bind at 1, read at 1. unfold bind at 1.
    rewrite for_each_delete_rows. reflexivity. }
  repeat (split; [reflexivity |]).
  intros a. simpl. unfold kept. rewrite filter_In. split.
  - intros [Ha Hk]. split; [assumption |]. now apply kept_by_delete in Hk.
  - intros [Ha Hk]. split; [assumption |]. now apply kept_by_delete.
Qed.

(** ** The query of [generate_report] *)

Lemma generate_report_where (start_date end_date : Date)
    (room_id movie_id : option Z) (s : Session) :
  generate_report start_date end_date room_id movie_id s
  = (s, Ok (execute_report (report_where start_date end_date room_id movie_id)
              (current s))).
Proof. reflexivity. Qed.

Lemma satisfies_report_where (start_date end_date : Date)
    (room_id movie_id : option Z) (sh : Showtime.t) (m : Movie.t) (r : Room.t) :
  satisfies (report_where start_date end_date room_id movie_id) (sh, m, r)
  = between (Showtime.show_date sh) start_date end_date
    && filter_applies room_id (Room.room_id r)
    && filter_applies movie_id (Movie.movie_id m).
Proof.
  unfold report_where, satisfies, filter_applies.
  destruct room_id as [x |]; [destruct (x =? 0) |];
    (destruct movie_id as [y |]; [destruct (y =? 0) |]);
    simpl;
    destruct (between (Showtime.show_date sh) start_date end_date);
    simpl; try reflexivity;
    repeat match goal with
           | |- context [?a =? ?b] => destruct (a =? b); simpl
           end;
    reflexivity.
Qed.

Lemma map_filter_flat_map {A B C : Type} (f : B -> C) (p : B -> bool)
    (g : A -> list B) (l : list A) :
  map f (filter p (flat_map g l))
  = flat_map (fun x => map f (filter p (g x))) l.
Proof.
  induction l as [| a l IH]; simpl; [reflexivity |].
  now rewrite filter_app, map_app, IH.
Qed.

(** The two joins, for one showtime, are two lookups. *)
Lemma report_from_showtime (d : Store) (sh : Showtime.t) :
  wf_store d ->
  flat_map
    (fun m =>
       if Showtime.movie_id sh =? Movie.movie_id m
       then
         flat_map
           (fun r =>
              if Showtime.room_id sh =? Room.room_id r
              then [(sh, m, r)]
              else [])
           (Rooms d)
       else [])
    (Movies d)
  = match get_movie (Showtime.movie_id sh) d,
          get_room (Showtime.room_id sh) d with
    | Some m, Some r => [(sh, m, r)]
    | _, _ => []
    end.
Proof.
  intros Hwf. unfold get_movie, get_room.
  rewrite (flat_map_key Movie.movie_id) by (apply ascending_NoDup, Hwf).
  destruct (find _ (Movies d)) as [m |]; [| reflexivity].
  rewrite (flat_map_key Room.room_id) by (apply ascending_NoDup, Hwf).
  reflexivity.
Qed.

Lemma execute_report_rows (d : Store) (start_date end_date : Date)
    (room_id movie_id : option Z) :
  wf_store d ->
  execute_report (report_where start_date end_date room_id movie_id) d
  = flat_map (report_row d start_date end_date room_id movie_id) (Showtimes d).
Proof.
  intros Hwf. unfold execute_report, report_from.
  rewrite map_filter_flat_map. apply flat_map_ext. intros sh.
  rewrite report_from_showtime by assumption. unfold report_row.
  destruct (get_movie (Showtime.movie_id sh) d) as [m |] eqn:Hm; [| reflexivity].
  destruct (get_room (Showtime.room_id sh) d) as [r |] eqn:Hr; [| reflexivity].
  apply find_key_Some in Hm, Hr. destruct Hm as [_ Hm], Hr as [_ Hr].
  simpl. rewrite satisfies_report_where, Hm, Hr.
  destruct (_ && _ && _); reflexivity.
Qed.

Lemma execute_report_in_range (d : Store) (start_date end_date : Date)
    (room_id movie_id : option Z) :
  Forall (fun row => between (Report.show_date row) start_date end_date = true)
    (execute_report (report_where start_date end_date room_id movie_id) d).
Proof.
  apply Forall_forall. intros row Hrow. unfold execute_report in Hrow.
  apply in_map_iff in Hrow. destruct Hrow as [[[sh m] r] [<- Hj]].
  apply filter_In in Hj. destruct Hj as [_ Hsat].
  rewrite satisfies_report_where in Hsat.
  apply andb_true_iff in Hsat. destruct Hsat as [Hsat _].
  apply andb_true_iff in Hsat. destruct Hsat as [Hsat _]. exact Hsat.
Qed.

(** ** Referential integrity, operation by operation

    The functions other than [update_movie_rooms] keep the association
    table referentially intact, in the open transaction and in the
    committed store, and [update_movie_rooms] does when the movie and the
    rooms it is given exist. *)

Lemma referential_integrity_ids (d d' : Store) :
  (forall a, In a (movie_room_association d') ->
             In a (movie_room_association d)) ->
  (forall i, In i (map Movie.movie_id (Movies d)) ->
             In i (map Movie.movie_id (Movies d'))) ->
  (forall i, In i (map Room.room_id (Rooms d)) ->
             In i (map Room.room_id (Rooms d'))) ->
  referential_integrity d -> referential_integrity d'.
Proof.
  intros Ha Hm Hr H a Hin. destruct (H a (Ha a Hin)). split; auto.
Qed.

Lemma intact_add_movie_orm (t : string) (g : option string) (n : option Z)
    (r : option Date) :
  preserves intact (add_movie_orm t g n r).
Proof.
  intros s [_ Hd].
  assert (H : referential_integrity
                (with_Movies (current s)
                   (Movies (current s)
                    ++ [Movie.mk
                          (next_rowid (map Movie.movie_id (Movies (current s))))
                          t g n r]))).
  { apply (referential_integrity_ids (current s)); simpl; auto.
    intros i Hi. rewrite map_app. apply in_or_app. now left. }
  split; exact H.
Qed.

Lemma intact_update_movie_orm (movie_id : Z) (t : string) (g : option string)
    (n : option Z) (r : option Date) :
  preserves intact (update_movie_orm movie_id t g n r).
Proof.
  intros s [Hc Hd]. unfold update_movie_orm, bind, read.
  destruct (get_movie movie_id (current s)) as [m |] eqn:Hget; simpl;
    [| split; assumption].
  apply find_key_Some in Hget. destruct Hget as [_ ->].
  match goal with
  | |- intact {| committed := ?d; current := _ |} =>
      assert (H : referential_integrity d)
  end.
  { apply (referential_integrity_ids (current s)); simpl; auto.
    intros i Hi. rewrite map_map.
    erewrite map_ext; [exact Hi |].
    intros m0. simpl.
    destruct (Z.eqb_spec (Movie.movie_id m0) movie_id); simpl; congruence. }
  split; exact H.
Qed.

Lemma intact_delete_movie_orm (movie_id : Z) :
  preserves intact (delete_movie_orm movie_id).
Proof.
  intros s [Hc Hd].
  destruct (in_dec Z.eq_dec movie_id (map Movie.movie_id (Movies (current s))))
    as [Hin | Hout].
  - destruct (delete_movie_orm_result s movie_id Hin)
      as [s' [Hdel [Hcommit [Hmovies [Hrooms [_ Hkept]]]]]].
    rewrite Hdel. simpl.
    assert (H : referential_integrity (current s')).
    { intros a Ha. apply Hkept in Ha. destruct Ha as [Ha Hno].
      destruct (Hd a Ha) as [Hm Hr]. rewrite Hrooms, Hmovies.
      split; [| assumption].
      apply in_map_iff in Hm. destruct Hm as [m [Hid Hm]].
      apply in_map_iff. exists m. split; [assumption |].
      apply filter_In. split; [assumption |].
      apply negb_true_iff, Z.eqb_neq. intros Heq. apply Hno.
      split; congruence. }
    split; [rewrite Hcommit |]; exact H.
  - unfold delete_movie_orm, bind, read.
    apply find_key_None in Hout. unfold get_movie. rewrite Hout.
    split; assumption.
Qed.

(** The loop of inserts, however it ends, has added the pairs of some of
    the ids. *)
Lemma for_each_insert_state (movie_id : Z) (room_ids : list Z) (s : Session) :
  exists done,
    incl done room_ids
    /\ fst (for_each room_ids
              (fun room_id => insert_association movie_id room_id) s)
       = mkSession (committed s)
           (with_association (current s)
              (movie_room_association (current s)
               ++ map (pair movie_id) done)).
Proof.
  revert s. induction room_ids as [| r l IH]; intros s; simpl.
  - exists []. split; [apply incl_refl |]. simpl.
    now rewrite app_nil_r, with_association_same, session_eta.
  - unfold bind at 1. unfold insert_association at 1.
    destruct (existsb (pair_eqb (movie_id, r))
                (movie_room_association (current s))).
    + exists []. split; [intros x [] |]. simpl.
      now rewrite app_nil_r, with_association_same, session_eta.
    + match goal with
      | |- context [for_each l ?f ?s0] => destruct (IH s0) as [done [Hincl Hs]]
      end.
      exists (r :: done). split.
      * intros x [<- | Hx]; [now left | right; now apply Hincl].
      * rewrite Hs. simpl. now rewrite with_association_twice, <- app_assoc.
Qed.

Lemma intact_update_movie_rooms (movie_id : Z) (room_ids : list Z)
    (s : Session) :
  In movie_id (map Movie.movie_id (Movies (current s))) ->
  (forall r, In r room_ids -> In r (map Room.room_id (Rooms (current s)))) ->
  intact s -> intact (fst (update_movie_rooms movie_id room_ids s)).
Proof.
  intros Hmovie Hrooms [Hc Hd]. unfold update_movie_rooms.
  unfold bind at 1. unfold delete_association_of_movie, modify.
  unfold bind at 1.
  match goal with
  | |- context [for_each room_ids ?f ?s0] =>
      destruct (for_each_insert_state movie_id room_ids s0)
        as [done [Hincl Hs]];
      destruct (for_each room_ids f s0) as [s1 [[] | e]]
  end; simpl in Hs; subst s1; simpl.
  - match goal with
    | |- intact {| committed := ?d; current := _ |} =>
        assert (H : referential_integrity d)
    end.
    { intros a Ha. simpl in *. apply in_app_or in Ha. destruct Ha as [Ha | Ha].
      - apply without_movie_In in Ha. apply Hd. tauto.
      - apply in_map_iff in Ha. destruct Ha as [r [<- Hr]]. simpl. auto. }
    split; exact H.
  - split; [assumption |].
    intros a Ha. simpl in *. apply in_app_or in Ha. destruct Ha as [Ha | Ha].
    + apply without_movie_In in Ha. apply Hd. tauto.
    + apply in_map_iff in Ha. destruct Ha as [r [<- Hr]]. simpl. auto.
Qed.

Lemma intact_add_sample_data : preserves intact add_sample_data.
Proof.
  intros [c [ms rs sh ass]] [Hc Hd]. simpl in Hc, Hd.
  unfold add_sample_data, bind, read, flushing, commit, insert_room,
    insert_movie, insert_association, raise, ret, get_room.
  destruct rs as [| r rs]; destruct ms as [| m ms]; cbn [current committed
    Rooms Movies movie_room_association hd_error with_Rooms with_Movies
    with_association app fst snd].
  - cbn. destruct (existsb _ ass); cbn; [split; assumption |].
    assert (H : referential_integrity
                  (mkStore
                     [Movie.mk 1 "Inception" (Some "Sci-Fi"%string) (Some 148)
                        (Some (mkDate 2010 7 16));
                      Movie.mk 2 "The Godfather" (Some "Crime"%string)
                        (Some 175) (Some (mkDate 1972 3 24))]
                     [Room.mk 1 1 (Some 3); Room.mk 2 2 (Some 2)]
                     sh (ass ++ [(1, 1)]))).
    { intros a Ha. simpl in Ha. apply in_app_or in Ha.
      destruct Ha as [Ha | [<- | []]].
      - destruct (Hd a Ha) as [[] _].
      - simpl. tauto. }
    split; exact H.
  - cbn.
    match goal with
    | |- intact {| committed := ?d; current := _ |} =>
        assert (H : referential_integrity d)
    end.
    { intros a Ha. destruct (Hd a Ha) as [_ []]. }
    split; exact H.
  - destruct (find _ (r :: rs)) as [r1 |] eqn:Hfind; cbn;
      [| split; assumption].
    destruct (existsb _ ass); cbn; [split; assumption |].
    apply find_some in Hfind. destruct Hfind as [Hr1 _].
    match goal with
    | |- intact {| committed := ?d; current := _ |} =>
        assert (H : referential_integrity d)
    end.
    { intros a Ha. simpl in Ha. apply in_app_or in Ha.
      destruct Ha as [Ha | [<- | []]].
      - destruct (Hd a Ha) as [[] _].
      - simpl. split; [tauto |].
        change (In (Room.room_id r1) (map Room.room_id (r :: rs))).
        now apply in_map. }
    split; exact H.
  - cbn. split; exact Hd.
Qed.

(** ** The plan driven by the index returns the rows of the join, in the
    same order *)

Lemma insert_id_In (i x : Z) (l : list Z) :
  In x (insert_id i l) <-> x = i \/ In x l.
Proof.
  induction l as [| j l IH]; simpl; [intuition |].
  destruct (i <=? j); simpl; [intuition | rewrite IH; intuition].
Qed.

Lemma insert_id_ascending (i : Z) (l : list Z) :
  ascending l -> ~ In i l -> ascending (insert_id i l).
Proof.
  unfold ascending. induction 1 as [| j l Hs IH Hlt]; simpl; intros Hni.
  - repeat constructor.
  - destruct (Z.leb_spec i j).
    + constructor; [now constructor |].
      constructor; [lia |].
      eapply Forall_impl; [| exact Hlt]. simpl. intros; lia.
    + constructor; [apply IH; tauto |].
      apply Forall_forall. intros x Hx. apply insert_id_In in Hx.
      destruct Hx as [-> | Hx]; [lia |].
      rewrite Forall_forall in Hlt. now apply Hlt.
Qed.

Lemma fold_insert_id_In (x : Z) (l : list Z) :
  In x (fold_right insert_id [] l) <-> In x l.
Proof.
  induction l as [| i l IH]; simpl; [tauto |].
  rewrite insert_id_In, IH. intuition.
Qed.

Lemma fold_insert_id_ascending (l : list Z) :
  NoDup l -> ascending (fold_right insert_id [] l).
Proof.
  induction 1 as [| i l Hni _ IH]; simpl; [constructor |].
  apply insert_id_ascending; [assumption |]. now rewrite fold_insert_id_In.
Qed.

Lemma index_room_ids_In (movie_id : Z) (d : Store) (r : Z) :
  In r (index_room_ids movie_id d)
  <-> In (movie_id, r) (movie_room_association d).
Proof.
  unfold index_room_ids. rewrite fold_insert_id_In, in_map_iff. split.
  - intros [[m r'] [Hsnd Hin]]. apply filter_In in Hin.
    destruct Hin as [Hin Hm]. simpl in *. apply Z.eqb_eq in Hm. now subst.
  - intros Hin. exists (movie_id, r). split; [reflexivity |].
    apply filter_In. split; [assumption |]. simpl. apply Z.eqb_refl.
Qed.

Lemma index_room_ids_ascending (movie_id : Z) (d : Store) :
  NoDup (movie_room_association d) -> ascending (index_room_ids movie_id d).
Proof.
  intros Hnd. apply fold_insert_id_ascending.
  induction Hnd as [| [m r] l Hni _ IH]; simpl; [constructor |].
  destruct (Z.eqb_spec m movie_id) as [-> | Hne]; simpl; [| assumption].
  constructor; [| assumption].
  rewrite in_map_iff. intros [[m' r'] [Hsnd Hin]]. apply filter_In in Hin.
  destruct Hin as [Hin Hm]. simpl in *. apply Z.eqb_eq in Hm. subst.
  contradiction.
Qed.

(** Two lists of rows in strictly ascending order of their first column
    and with the same rows are the same list. *)
Lemma ascending_rows_ext (l1 l2 : list (Z * Z)) :
  ascending (map fst l1) -> ascending (map fst l2) ->
  (forall x, In x l1 <-> In x l2) -> l1 = l2.
Proof.
  unfold ascending. revert l2.
  induction l1 as [| a l1 IH]; intros l2 H1 H2 Hext.
  - destruct l2 as [| b l2]; [reflexivity |].
    exfalso. apply (Hext b). now left.
  - destruct l2 as [| b l2]; [exfalso; apply (Hext a); now left |].
    simpl in H1, H2.
    inversion H1 as [| ? ? Hs1 Hlt1]; subst.
    inversion H2 as [| ? ? Hs2 Hlt2]; subst.
    rewrite Forall_forall in Hlt1, Hlt2.
    assert (Hab : a = b).
    { destruct (proj1 (Hext a) (or_introl eq_refl)) as [Hba | Hin2];
        [now symmetry |].
      destruct (proj2 (Hext b) (or_introl eq_refl)) as [Hab | Hin1];
        [assumption |].
      pose proof (Hlt2 _ (in_map fst _ _ Hin2)).
      pose proof (Hlt1 _ (in_map fst _ _ Hin1)). lia. }
    subst b. f_equal. apply IH; try assumption.
    intros x. split; intros Hx.
    + destruct (proj1 (Hext x) (or_intror Hx)) as [<- | Hx2]; [| assumption].
      pose proof (Hlt1 _ (in_map fst _ _ Hx)). lia.
    + destruct (proj2 (Hext x) (or_intror Hx)) as [<- | Hx1]; [| assumption].
      pose proof (Hlt2 _ (in_map fst _ _ Hx)). lia.
Qed.

Lemma select_by_index_In (movie_id : Z) (d : Store) (rid num : Z) :
  NoDup (map Room.room_id (Rooms d)) ->
  In (rid, num) (select_movie_rooms_by_index movie_id d)
  <-> In (rid, num) (select_movie_rooms movie_id d).
Proof.
  intros Hnd. rewrite select_movie_rooms_In.
  unfold select_movie_rooms_by_index. rewrite in_flat_map. split.
  - intros [i [Hi Hin]]. apply index_room_ids_In in Hi.
    destruct (get_room i d) as [r |] eqn:Hget; [| contradiction].
    apply find_key_Some in Hget. destruct Hget as [Hr Hid].
    destruct Hin as [[= <- <-] | []]. rewrite Hid.
    split; [assumption | exists r; auto].
  - intros [Ha [r [Hr [Hid Hnum]]]]. exists rid.
    split; [now apply index_room_ids_In |].
    destruct (get_room rid d) as [r' |] eqn:Hget.
    + apply find_key_Some in Hget. destruct Hget as [Hr' Hid'].
      assert (r' = r); [| subst; now left].
      clear - Hnd Hr Hr' Hid Hid'. subst rid.
      induction (Rooms d) as [| x l IH]; [contradiction |].
      simpl in Hnd. inversion Hnd as [| ? ? Hni Hnd']; subst.
      destruct Hr as [-> | Hr], Hr' as [-> | Hr']; auto.
      * exfalso. apply Hni. rewrite <- Hid'. now apply in_map.
      * exfalso. apply Hni. rewrite Hid'. now apply in_map.
    + apply find_key_None in Hget. exfalso. apply Hget.
      rewrite <- Hid. now apply in_map.
Qed.

Lemma select_by_index_ascending (movie_id : Z) (d : Store) :
  NoDup (movie_room_association d) ->
  ascending (map fst (select_movie_rooms_by_index movie_id d)).
Proof.
  intros Hnd. unfold select_movie_rooms_by_index.
  pose proof (index_room_ids_ascending movie_id d Hnd) as Hasc.
  induction Hasc as [| i ids Hs IH Hlt]; simpl; [constructor |].
  assert (Hrest : Forall (fun x => i < x)
                    (map fst
                       (flat_map
                          (fun rid =>
                             match get_room rid d with
                             | Some r => [(Room.room_id r, Room.room_number r)]
                             | None => []
                             end) ids))).
  { apply Forall_forall. intros x Hx. apply in_map_iff in Hx.
    destruct Hx as [[rid num] [<- Hin]]. apply in_flat_map in Hin.
    destruct Hin as [j [Hj Hin]].
    destruct (get_room j d) as [r |] eqn:Hget; [| contradiction].
    apply find_key_Some in Hget. destruct Hget as [_ Hid].
    destruct Hin as [[= <- <-] | []]. simpl. rewrite Hid.
    rewrite Forall_forall in Hlt. now apply Hlt. }
  destruct (get_room i d) as [r |] eqn:Hget; simpl; [| exact IH].
  apply find_key_Some in Hget. destruct Hget as [_ Hid]. rewrite Hid.
  constructor; assumption.
Qed.

(** The two plans return the same rows in the same order. *)
Lemma select_by_index_agrees (movie_id : Z) (d : Store) :
  wf_store d ->
  select_movie_rooms_by_index movie_id d = select_movie_rooms movie_id d.
Proof.
  intros Hwf. apply ascending_rows_ext.
  - apply select_by_index_ascending, Hwf.
  - now apply select_movie_rooms_ascending.
  - intros [rid num]. apply select_by_index_In, ascending_NoDup, Hwf.
Qed.

(** * The properties of the specification *)

(** ** Association Manager: replacing the rooms of a movie and reading them
    back *)

(** C1, as stated, fails: an id given twice makes the second insert raise,
    and an id that is no room's is stored but not read back. *)
Lemma replace_round_trip_counterexample :
  ~ replace_round_trip (open_session seeded_store) 1 [2; 2]
  /\ ~ replace_round_trip (open_session seeded_store) 1 [99].
Proof.
  split; intros [s' [rows [Hupd [Hfetch Hset]]]].
  - vm_compute in Hupd. discriminate.
  - vm_compute in Hupd. injection Hupd as <-.
    vm_compute in Hfetch. injection Hfetch as <-.
    destruct (Hset 99) as [_ H]. simpl in H. apply H. now left.
Qed.

(** C1, amended. For every movie id and every list [room_ids] of distinct
    ids of existing rooms, whatever the association table held before,
    [update_movie_rooms] returns; [fetch_movie_rooms] then returns exactly
    the rooms of [room_ids], each once and with its room number; and a
    second call with the same list returns and leaves the session as the
    first call left it. *)
Theorem update_movie_rooms_round_trip (s : Session) (movie_id : Z)
    (room_ids : list Z) :
  wf_store (current s) ->
  NoDup room_ids ->
  (forall r, In r room_ids -> In r (map Room.room_id (Rooms (current s)))) ->
  exists s' rows,
    update_movie_rooms movie_id room_ids s = (s', Ok tt)
    /\ fetch_movie_rooms movie_id s' = (s', Ok rows)
    /\ Permutation (map fst rows) room_ids
    /\ (forall rid num,
          In (rid, num) rows ->
          exists r, In r (Rooms (current s))
                    /\ Room.room_id r = rid /\ Room.room_number r = num)
    /\ update_movie_rooms movie_id room_ids s' = (s', Ok tt).
Proof.
  intros Hwf Hnd Hrooms.
  set (d := with_association (current s)
              (without_movie movie_id (movie_room_association (current s))
               ++ map (pair movie_id) room_ids)).
  assert (Hwfd : wf_store d).
  { apply wf_with_association; [assumption |].
    apply NoDup_replaced; [apply Hwf | assumption]. }
  assert (Hmem : forall rid, In rid (map fst (select_movie_rooms movie_id d))
                             <-> In rid room_ids).
  { intros rid. rewrite in_map_iff. split.
    - intros [[rid' num] [Hfst Hin]]. simpl in Hfst. subst rid'.
      apply select_movie_rooms_In in Hin. destruct Hin as [Ha _].
      simpl in Ha. apply in_app_or in Ha. destruct Ha as [Ha | Ha].
      + apply without_movie_In in Ha. simpl in Ha. tauto.
      + apply in_map_iff in Ha. destruct Ha as [x [[= ->] Hx]]. assumption.
    - intros Hin. pose proof (Hrooms rid Hin) as Hroom.
      apply in_map_iff in Hroom. destruct Hroom as [r [Hid Hr]].
      exists (rid, Room.room_number r). split; [reflexivity |].
      apply select_movie_rooms_In. split.
      + simpl. apply in_or_app. right. now apply in_map.
      + exists r. auto. }
  exists (mkSession d d), (select_movie_rooms movie_id d).
  split; [now apply update_movie_rooms_distinct |].
  split; [reflexivity |]. split; [| split].
  - apply NoDup_Permutation.
    + apply ascending_NoDup. now apply select_movie_rooms_ascending.
    + assumption.
    + exact Hmem.
  - intros rid num Hin. apply select_movie_rooms_In in Hin. tauto.
  - rewrite update_movie_rooms_distinct by assumption. simpl.
    unfold d at 1 2. simpl. rewrite without_movie_idem. reflexivity.
Qed.

Lemma update_movie_rooms_round_trip_witness :
  exists s' rows,
    update_movie_rooms 1 [2; 1] (open_session seeded_store) = (s', Ok tt)
    /\ fetch_movie_rooms 1 s' = (s', Ok rows)
    /\ Permutation (map fst rows) [2; 1]
    /\ (forall rid num,
          In (rid, num) rows ->
          exists r, In r (Rooms seeded_store)
                    /\ Room.room_id r = rid /\ Room.room_number r = num)
    /\ update_movie_rooms 1 [2; 1] s' = (s', Ok tt).
Proof.
  apply (update_movie_rooms_round_trip (open_session seeded_store) 1 [2; 1]).
  - constructor; simpl; unfold ascending;
      repeat (constructor; simpl; try lia; try tauto).
  - repeat constructor; simpl; intuition lia.
  - simpl. intuition lia.
Defined.

(** ** Report Generator: the rows of the report *)

(** C2, as stated, fails: the showtime of 2024-06-01 is in the range of
    the year 2024 and no filter is given, yet the report is empty, because
    the join finds no movie for it. *)
Lemma report_covers_showtimes_counterexample :
  ~ report_covers_showtimes orphaned_session
      (mkDate 2024 1 1) (mkDate 2024 12 31) None None.
Proof.
  intros [rows [Hrep [Hcov _]]].
  vm_compute in Hrep. injection Hrep as <-.
  destruct (Hcov (Showtime.mk 1 1 1 (mkDate 2024 6 1) (mkTime 20 0 0)))
    as [row [[] _]]; simpl; auto.
Qed.

(** C2, amended. In every session [generate_report] returns, leaves the
    session as it is, and returns no row whose show date is outside
    [start_date, end_date].  In a well-formed store the rows are, showtime
    by showtime, one row (title, show date, show time, room number,
    duration) for every showtime whose movie id and room id reference an
    existing movie and an existing room, whose show date is in the range,
    and which matches the room filter when a non-zero room id is given and
    the movie filter when a non-zero movie id is given; and no other
    row. *)
Theorem generate_report_rows (s : Session) (start_date end_date : Date)
    (room_id movie_id : option Z) :
  exists rows,
    generate_report start_date end_date room_id movie_id s = (s, Ok rows)
    /\ Forall
         (fun row => between (Report.show_date row) start_date end_date = true)
         rows
    /\ (wf_store (current s) ->
        rows = flat_map
                 (report_row (current s) start_date end_date room_id movie_id)
                 (Showtimes (current s))).
Proof.
  eexists. split; [apply generate_report_where |].
  split; [apply execute_report_in_range | apply execute_report_rows].
Qed.

Lemma generate_report_rows_witness :
  exists rows,
    generate_report (mkDate 2024 1 1) (mkDate 2024 12 31) (Some 1) None
      (open_session screening_store)
    = (open_session screening_store, Ok rows)
    /\ rows = [Report.mk "Inception" (mkDate 2024 6 1) (mkTime 20 0 0) 1
                 (Some 148)].
Proof.
  destruct (generate_report_rows (open_session screening_store)
              (mkDate 2024 1 1) (mkDate 2024 12 31) (Some 1) None)
    as [rows [Hrep [_ Hrows]]].
  exists rows. split; [exact Hrep |].
  rewrite Hrows; [reflexivity |].
  constructor; simpl; unfold ascending;
    repeat (constructor; simpl; try lia; try tauto).
Defined.

(** ** Movie Repository: deleting a movie and its associations *)

(** C3, as stated, fails: the deletion of movie 1 removes its row for room
    1 and leaves its row for the missing room 99. *)
Lemma delete_leaves_no_association_counterexample :
  In 1 (map Movie.movie_id (Movies (current dangling_session)))
  /\ ~ delete_leaves_no_association dangling_session 1.
Proof.
  split; [simpl; tauto |].
  intros [s' [Hdel [_ [Hnone _]]]].
  vm_compute in Hdel. injection Hdel as <-.
  apply (Hnone 99). simpl. tauto.
Qed.

(** C3, amended. For every movie id present in the store,
    [delete_movie_orm] returns, the Movie row is gone and
    [fetch_movie_rooms] then returns the empty list; and when every
    association row of the movie referenced an existing room, no
    association row of the movie is left. *)
Theorem delete_movie_orm_removes (s : Session) (movie_id : Z) :
  In movie_id (map Movie.movie_id (Movies (current s))) ->
  exists s',
    delete_movie_orm movie_id s = (s', Ok tt)
    /\ ~ In movie_id (map Movie.movie_id (Movies (current s')))
    /\ ~ In movie_id (map Movie.movie_id (Movies (committed s')))
    /\ fetch_movie_rooms movie_id s' = (s', Ok [])
    /\ ((forall r, In (movie_id, r) (movie_room_association (current s)) ->
                   In r (map Room.room_id (Rooms (current s)))) ->
        forall r,
          ~ In (movie_id, r) (movie_room_association (current s'))
          /\ ~ In (movie_id, r) (movie_room_association (committed s'))).
Proof.
  intros Hpresent.
  destruct (delete_movie_orm_result s movie_id Hpresent)
    as [s' [Hdel [Hcommit [Hmovies [Hrooms [_ Hkept]]]]]].
  assert (Hgone : ~ In movie_id (map Movie.movie_id (Movies (current s')))).
  { rewrite Hmovies, in_map_iff. intros [m [Hm Hin]].
    apply filter_In in Hin. destruct Hin as [_ Hne].
    apply negb_true_iff, Z.eqb_neq in Hne. contradiction. }
  exists s'. rewrite Hcommit.
  split; [assumption |]. split; [assumption |]. split; [assumption |].
  split.
  - unfold fetch_movie_rooms, read. f_equal. f_equal.
    apply select_movie_rooms_deleted. rewrite Hrooms. intros r Hr Hroom.
    apply Hkept in Hr. simpl in Hr. tauto.
  - intros Hintact r.
    assert (Hno : ~ In (movie_id, r) (movie_room_association (current s'))).
    { intros Hr. apply Hkept in Hr. simpl in Hr. destruct Hr as [Hr Hno].
      apply Hno. split; [reflexivity | now apply Hintact]. }
    split; assumption.
Qed.

Lemma delete_movie_orm_removes_witness :
  exists s',
    delete_movie_orm 1 (open_session seeded_store) = (s', Ok tt)
    /\ ~ In 1 (map Movie.movie_id (Movies (current s')))
    /\ ~ In 1 (map Movie.movie_id (Movies (committed s')))
    /\ fetch_movie_rooms 1 s' = (s', Ok [])
    /\ forall r,
         ~ In (1, r) (movie_room_association (current s'))
         /\ ~ In (1, r) (movie_room_association (committed s')).
Proof.
  destruct (delete_movie_orm_removes (open_session seeded_store) 1)
    as [s' [Hdel [Hcur [Hcom [Hfetch Hrows]]]]].
  - simpl. tauto.
  - exists s'. repeat (split; [assumption |]).
    apply Hrows. simpl. intros r [[= <-] | []]. tauto.
Defined.

(** ** Data model: referential integrity of the association *)

(** C4. The seeded store is reached by the seed and is referentially
    intact; [update_movie_rooms] then breaks the invariant, on the room side
    with a room id that no room has and on the movie side with a movie id
    that no movie has: both calls return normally and commit, so a session
    is reached whose committed association table references a missing
    row. *)
Theorem update_movie_rooms_breaks_referential_integrity :
  reachable (open_session seeded_store)
  /\ referential_integrity seeded_store
  /\ (exists s',
        update_movie_rooms 1 [99] (open_session seeded_store) = (s', Ok tt)
        /\ reachable s'
        /\ ~ referential_integrity (committed s'))
  /\ (exists s',
        update_movie_rooms 7 [1] (open_session seeded_store) = (s', Ok tt)
        /\ reachable s'
        /\ ~ referential_integrity (committed s')).
Proof.
  split; [apply reachable_seeded |]. split; [| split].
  - intros a [<- | []]. simpl. tauto.
  - exists (fst (update_movie_rooms 1 [99] (open_session seeded_store))).
    split; [vm_compute; reflexivity |]. split.
    + eapply reachable_step; [apply reachable_seeded | constructor].
    + intros H. destruct (H (1, 99)) as [_ Hroom]; simpl in *; intuition lia.
  - exists (fst (update_movie_rooms 7 [1] (open_session seeded_store))).
    split; [vm_compute; reflexivity |]. split.
    + eapply reachable_step; [apply reachable_seeded | constructor].
    + intros H. destruct (H (7, 1)) as [Hmovie _]; simpl in *; intuition lia.
Qed.

(** ** Association Manager: room ids that are no room's *)

(** C5. The schema declares room_id a foreign key to Rooms, but the engine
    does not check it: in the seeded store, where no room has id 99,
    [update_movie_rooms(1, [99])] returns normally and commits the row
    (1, 99). *)
Theorem update_movie_rooms_accepts_missing_room :
  get_room 99 seeded_store = None
  /\ ~ In 99 (map Room.room_id (Rooms seeded_store))
  /\ exists s',
       update_movie_rooms 1 [99] (open_session seeded_store) = (s', Ok tt)
       /\ In (1, 99) (movie_room_association (committed s')).
Proof.
  split; [reflexivity |]. split.
  - simpl. intuition lia.
  - eexists. split; [vm_compute; reflexivity |]. simpl. tauto.
Qed.

(** ** Association Manager: a replacement that fails midway *)

(** C6, as stated, fails: the second insert of room 2 raises, and the
    session then finds movie 1 in room 2 alone, not in room 1 as before;
    the next function that commits on the session, here the addition of a
    movie, makes that partial set durable. *)
Lemma failure_keeps_association_counterexample :
  ~ failure_keeps_association (open_session seeded_store) 1 [2; 2]
  /\ exists s1 s2 dune,
       update_movie_rooms 1 [2; 2] (open_session seeded_store)
       = (s1, Raise IntegrityError)
       /\ fetch_movie_rooms 1 s1 = (s1, Ok [(2, 2)])
       /\ add_movie_orm "Dune" (Some "Sci-Fi"%string) (Some 155)
            (Some (mkDate 2021 10 22)) s1
          = (s2, Ok dune)
       /\ association_of 1 (committed s2) = [(1, 2)].
Proof.
  split.
  - intros H.
    destruct (H (mkSession seeded_store
                   (with_association seeded_store [(1, 2)]))
                IntegrityError eq_refl) as [Hrows _].
    vm_compute in Hrows. discriminate.
  - do 3 eexists.
    split; [vm_compute; reflexivity |].
    split; [vm_compute; reflexivity |].
    split; [vm_compute; reflexivity |].
    reflexivity.
Qed.

(** C6, amended. [update_movie_rooms] commits once, after the last insert.
    When it raises, the exception is the IntegrityError of an id given a
    second time; nothing has been committed, so the committed store, and
    with it the committed rows of the movie, is as before the call; the
    open transaction of the session is not rolled back: it has lost the
    previous rows of the movie and holds the rows inserted before the
    failure, the other tables untouched. *)
Theorem update_movie_rooms_failure (s s' : Session) (movie_id : Z)
    (room_ids : list Z) (e : error) :
  update_movie_rooms movie_id room_ids s = (s', Raise e) ->
  e = IntegrityError
  /\ committed s' = committed s
  /\ exists done r rest,
       room_ids = done ++ r :: rest
       /\ In r done
       /\ current s'
          = with_association (current s)
              (without_movie movie_id (movie_room_association (current s))
               ++ map (pair movie_id) done).
Proof.
  intros H. apply update_movie_rooms_raises in H.
  destruct H as [He [done [r [rest [Hl [Hin Hs']]]]]].
  split; [assumption |]. subst s'. simpl. split; [reflexivity |].
  exists done, r, rest. auto.
Qed.

Lemma update_movie_rooms_failure_witness :
  IntegrityError = IntegrityError
  /\ committed (mkSession seeded_store (with_association seeded_store [(1, 2)]))
     = committed (open_session seeded_store)
  /\ exists done r rest,
       [2; 2] = done ++ r :: rest
       /\ In r done
       /\ current (mkSession seeded_store
                     (with_association seeded_store [(1, 2)]))
          = with_association (current (open_session seeded_store))
              (without_movie 1
                 (movie_room_association (current (open_session seeded_store)))
               ++ map (pair 1) done).
Proof.
  apply (update_movie_rooms_failure (open_session seeded_store) _ 1 [2; 2]).
  reflexivity.
Defined.

(** ** Movie Repository: update and delete of an absent movie *)

(** C7. For every id that is not in the Movie table, [update_movie_orm]
    raises (the assignment to the attribute of None) and [delete_movie_orm]
    raises (the deletion of None), and each leaves the session, its open
    transaction and the committed store, exactly as it was. *)
Theorem absent_movie_update_delete_raise (s : Session) (movie_id : Z)
    (title : string) (genre : option string) (duration : option Z)
    (release_date : option Date) :
  ~ In movie_id (map Movie.movie_id (Movies (current s))) ->
  update_movie_orm movie_id title genre duration release_date s
  = (s, Raise AttributeError)
  /\ delete_movie_orm movie_id s = (s, Raise UnmappedInstanceError).
Proof.
  intros Habsent.
  assert (Hget : get_movie movie_id (current s) = None)
    by (now apply find_key_None).
  unfold update_movie_orm, delete_movie_orm, bind, read.
  rewrite Hget. split; reflexivity.
Qed.

Lemma absent_movie_update_delete_raise_witness :
  update_movie_orm 5 "Dune" None (Some 155) None (open_session seeded_store)
  = (open_session seeded_store, Raise AttributeError)
  /\ delete_movie_orm 5 (open_session seeded_store)
     = (open_session seeded_store, Raise UnmappedInstanceError).
Proof.
  apply (absent_movie_update_delete_raise (open_session seeded_store) 5).
  simpl. intuition lia.
Defined.

(** ** Seed Loader *)

(** C8. On an empty store the seed returns and commits: the Room table
    holds the rows (room number, capacity) (1,3) and (2,2), the Movie table
    the rows of Inception and The Godfather, and the rooms read back for
    Inception are room 1 alone.  A second seed returns and leaves the whole
    session, committed store included, unchanged: no row is added. *)
Theorem add_sample_data_on_empty_store :
  add_sample_data (open_session empty_store)
  = (open_session seeded_store, Ok tt)
  /\ map (fun r => (Room.room_number r, Room.max_capacity r))
       (Rooms seeded_store)
     = [(1, Some 3); (2, Some 2)]
  /\ map (fun m => (Movie.title m, Movie.genre m, Movie.duration m,
                    Movie.release_date m))
       (Movies seeded_store)
     = [("Inception"%string, Some "Sci-Fi"%string, Some 148,
         Some (mkDate 2010 7 16));
        ("The Godfather"%string, Some "Crime"%string, Some 175,
         Some (mkDate 1972 3 24))]
  /\ (exists inception,
        get_movie 1 seeded_store = Some inception
        /\ Movie.title inception = "Inception"%string
        /\ fetch_movie_rooms (Movie.movie_id inception)
             (open_session seeded_store)
           = (open_session seeded_store, Ok [(1, 1)]))
  /\ add_sample_data (open_session seeded_store)
     = (open_session seeded_store, Ok tt).
Proof.
  split; [reflexivity |]. split; [reflexivity |]. split; [reflexivity |].
  split; [| reflexivity].
  eexists. split; [reflexivity |]. split; reflexivity.
Qed.

(** ** Association Manager: reading the rooms of a movie *)






(** ** Report Generator: filters that are given but falsy *)

(** C10. A room id 0 is treated as no room filter, and a movie id 0 as no
    movie filter: the report is the one of the call without that
    argument, in every session and for all dates and other filter. *)
Theorem generate_report_falsy_filter (s : Session) (start_date end_date : Date)
    (room_id movie_id : option Z) :
  generate_report start_date end_date (Some 0) movie_id s
  = generate_report start_date end_date None movie_id s
  /\ generate_report start_date end_date room_id (Some 0) s
     = generate_report start_date end_date room_id None s.
Proof. split; reflexivity. Qed.

(** * Further properties of the program *)

(** ** Lookups in a table that was appended to, updated or filtered *)

Lemma find_key_app_fresh {A : Type} (key : A -> Z) (l : list A) (a : A) :
  Forall (fun i => i < key a) (map key l) ->
  find (fun x => key x =? key a) (l ++ [a]) = Some a.
Proof.
  induction l as [| x l IH]; simpl; intros H.
  - now rewrite Z.eqb_refl.
  - inversion H; subst. destruct (Z.eqb_spec (key x) (key a)); [lia | auto].
Qed.

Lemma find_key_app_old {A : Type} (key : A -> Z) (l : list A) (a : A) (k : Z) :
  k <> key a ->
  find (fun x => key x =? k) (l ++ [a]) = find (fun x => key x =? k) l.
Proof.
  intros Hne. induction l as [| x l IH]; simpl.
  - destruct (Z.eqb_spec (key a) k); [congruence | reflexivity].
  - destruct (key x =? k); [reflexivity | exact IH].
Qed.

Lemma filter_key_app_fresh {A : Type} (key : A -> Z) (l : list A) (a : A) :
  Forall (fun i => i < key a) (map key l) ->
  filter (fun x => negb (key x =? key a)) (l ++ [a]) = l.
Proof.
  induction l as [| x l IH]; simpl; intros H.
  - now rewrite Z.eqb_refl.
  - inversion H; subst.
    destruct (Z.eqb_spec (key x) (key a)); [lia |]. simpl. now rewrite IH.
Qed.

Lemma find_key_filter {A : Type} (key : A -> Z) (l : list A) (k i : Z) :
  find (fun x => key x =? i) (filter (fun x => negb (key x =? k)) l)
  = if i =? k then None else find (fun x => key x =? i) l.
Proof.
  induction l as [| x l IH]; simpl.
  - now destruct (i =? k).
  - destruct (Z.eqb_spec (key x) k) as [Hk | Hk]; simpl.
    + rewrite IH. destruct (Z.eqb_spec i k); [reflexivity |].
      destruct (Z.eqb_spec (key x) i); [congruence | reflexivity].
    + destruct (Z.eqb_spec (key x) i) as [Hi | Hi]; [| exact IH].
      destruct (Z.eqb_spec i k); [congruence | reflexivity].
Qed.

Lemma updated_movies_ids (movie_id : Z) (t : string) (g : option string)
    (n : option Z) (r : option Date) (l : list Movie.t) :
  map Movie.movie_id (updated_movies movie_id t g n r l) = map Movie.movie_id l.
Proof.
  unfold updated_movies. rewrite map_map. apply map_ext. intros m.
  destruct (Z.eqb_spec (Movie.movie_id m) movie_id); simpl; congruence.
Qed.

Lemma updated_movies_get (movie_id : Z) (t : string) (g : option string)
    (n : option Z) (r : option Date) (l : list Movie.t) (i : Z) :
  find (fun m => Movie.movie_id m =? i) (updated_movies movie_id t g n r l)
  = if i =? movie_id
    then match find (fun m => Movie.movie_id m =? movie_id) l with
         | Some _ => Some (Movie.mk movie_id t g n r)
         | None => None
         end
    else find (fun m => Movie.movie_id m =? i) l.
Proof.
  induction l as [| m l IH]; simpl.
  - now destruct (i =? movie_id).
  - rewrite IH. clear IH.
    destruct (Z.eqb_spec (Movie.movie_id m) movie_id) as [Hm | Hm];
      destruct (Z.eqb_spec i movie_id) as [Hi | Hi]; simpl.
    + destruct (Z.eqb_spec movie_id i); [reflexivity | congruence].
    + destruct (Z.eqb_spec movie_id i); [congruence |].
      destruct (Z.eqb_spec (Movie.movie_id m) i); [congruence | reflexivity].
    + destruct (Z.eqb_spec (Movie.movie_id m) i); [congruence | reflexivity].
    + reflexivity.
Qed.

Lemma updated_movies_other (movie_id : Z) (t : string) (g : option string)
    (n : option Z) (r : option Date) (l : list Movie.t) :
  Forall (fun i => i < movie_id) (map Movie.movie_id l) ->
  updated_movies movie_id t g n r l = l.
Proof.
  induction l as [| m l IH]; simpl; intros H; [reflexivity |].
  inversion H; subst.
  destruct (Z.eqb_spec (Movie.movie_id m) movie_id); [lia |].
  now rewrite IH.
Qed.

(** What [update_movie_orm] does for a movie that is present. *)
Lemma update_movie_orm_result (s : Session) (movie_id : Z) (t : string)
    (g : option string) (n : option Z) (r : option Date) :
  In movie_id (map Movie.movie_id (Movies (current s))) ->
  let d := with_Movies (current s)
             (updated_movies movie_id t g n r (Movies (current s))) in
  update_movie_orm movie_id t g n r s = (mkSession d d, Ok tt).
Proof.
  intros Hin d. unfold update_movie_orm, bind, read.
  destruct (get_movie movie_id (current s)) as [m |] eqn:Hget.
  - apply find_key_Some in Hget. destruct Hget as [_ ->]. reflexivity.
  - apply find_key_None in Hget. contradiction.
Qed.

(** ** Movie Repository: adding and updating *)

(** X1. [add_movie_orm] always returns: the movie it returns has the four
    values given and an id greater than every id in the table, so distinct
    from all of them; it is committed; [get_all_movies] then lists the
    movies of before, in their order, followed by the new one; the other
    tables are untouched. *)
Theorem add_movie_orm_appends (s : Session) (title : string)
    (genre : option string) (duration : option Z)
    (release_date : option Date) :
  exists s' m,
    add_movie_orm title genre duration release_date s = (s', Ok m)
    /\ Movie.title m = title /\ Movie.genre m = genre
    /\ Movie.duration m = duration /\ Movie.release_date m = release_date
    /\ Forall (fun i => i < Movie.movie_id m)
         (map Movie.movie_id (Movies (current s)))
    /\ ~ In (Movie.movie_id m) (map Movie.movie_id (Movies (current s)))
    /\ get_all_movies s' = (s', Ok (Movies (current s) ++ [m]))
    /\ committed s' = current s'
    /\ Rooms (current s') = Rooms (current s)
    /\ Showtimes (current s') = Showtimes (current s)
    /\ movie_room_association (current s')
       = movie_room_association (current s).
Proof.
  pose proof (next_rowid_above (map Movie.movie_id (Movies (current s))))
    as Habove.
  do 2 eexists. split; [reflexivity |]. simpl.
  repeat (split; [reflexivity |]).
  split; [exact Habove |]. split.
  - intros Hin. rewrite Forall_forall in Habove.
    specialize (Habove _ Hin). lia.
  - repeat split; reflexivity.
Qed.

(** X2. For a movie id that is in the table, [update_movie_orm] returns
    and commits; the movie of that id now has the four values given; the
    ids of the table, their order and every movie of another id are as
    before; the other tables are untouched. *)
Theorem update_movie_orm_overwrites (s : Session) (movie_id : Z)
    (title : string) (genre : option string) (duration : option Z)
    (release_date : option Date) :
  In movie_id (map Movie.movie_id (Movies (current s))) ->
  exists s',
    update_movie_orm movie_id title genre duration release_date s
    = (s', Ok tt)
    /\ committed s' = current s'
    /\ get_movie movie_id (current s')
       = Some (Movie.mk movie_id title genre duration release_date)
    /\ map Movie.movie_id (Movies (current s'))
       = map Movie.movie_id (Movies (current s))
    /\ (forall i, i <> movie_id ->
          get_movie i (current s') = get_movie i (current s))
    /\ Rooms (current s') = Rooms (current s)
    /\ Showtimes (current s') = Showtimes (current s)
    /\ movie_room_association (current s')
       = movie_room_association (current s).
Proof.
  intros Hin. eexists. split; [now apply update_movie_orm_result |].
  simpl. split; [reflexivity |]. split; [| split; [| split]].
  - unfold get_movie. simpl. rewrite updated_movies_get, Z.eqb_refl.
    destruct (find _ (Movies (current s))) eqn:Hget; [reflexivity |].
    apply find_key_None in Hget. contradiction.
  - apply updated_movies_ids.
  - intros i Hi. unfold get_movie. simpl. rewrite updated_movies_get.
    destruct (Z.eqb_spec i movie_id); [contradiction | reflexivity].
  - repeat split; reflexivity.
Qed.

Lemma update_movie_orm_overwrites_witness :
  exists s',
    update_movie_orm 2 "The Godfather Part II" (Some "Crime"%string)
      (Some 202) (Some (mkDate 1974 12 20)) (open_session seeded_store)
    = (s', Ok tt)
    /\ committed s' = current s'
    /\ get_movie 2 (current s')
       = Some (Movie.mk 2 "The Godfather Part II" (Some "Crime"%string)
                 (Some 202) (Some (mkDate 1974 12 20)))
    /\ map Movie.movie_id (Movies (current s'))
       = map Movie.movie_id (Movies seeded_store)
    /\ (forall i, i <> 2 ->
          get_movie i (current s') = get_movie i seeded_store)
    /\ Rooms (current s') = Rooms seeded_store
    /\ Showtimes (current s') = Showtimes seeded_store
    /\ movie_room_association (current s')
       = movie_room_association seeded_store.
Proof.
  apply (update_movie_orm_overwrites (open_session seeded_store) 2).
  simpl. tauto.
Defined.

(** X3. A movie added and then updated under the id that the addition
    returned: both calls return, and [get_all_movies] lists the movies of
    before followed by one movie with that id and the values of the
    update; the addition has left no second row. *)
Theorem add_then_update_movie (s : Session) (title title' : string)
    (genre genre' : option string) (duration duration' : option Z)
    (release_date release_date' : option Date) :
  exists s1 m s2,
    add_movie_orm title genre duration release_date s = (s1, Ok m)
    /\ update_movie_orm (Movie.movie_id m) title' genre' duration'
         release_date' s1
       = (s2, Ok tt)
    /\ get_all_movies s2
       = (s2, Ok (Movies (current s)
                  ++ [Movie.mk (Movie.movie_id m) title' genre' duration'
                        release_date'])).
Proof.
  pose proof (next_rowid_above (map Movie.movie_id (Movies (current s))))
    as Habove.
  do 3 eexists. split; [reflexivity |]. split.
  - apply update_movie_orm_result. simpl. rewrite map_app.
    apply in_or_app. right. simpl. now left.
  - unfold get_all_movies, read. simpl. f_equal. f_equal.
    unfold updated_movies. rewrite map_app.
    fold (updated_movies
            (next_rowid (map Movie.movie_id (Movies (current s))))
            title' genre' duration' release_date' (Movies (current s))).
    rewrite updated_movies_other by exact Habove.
    simpl. now rewrite Z.eqb_refl.
Qed.

(** X4. The id of a deleted movie is given again: a movie added, deleted
    under the id that the addition returned, and followed by a second
    addition; the three calls return and the second movie has the id of the
    first. *)
Theorem deleted_movie_id_is_reused (s : Session) (title title' : string)
    (genre genre' : option string) (duration duration' : option Z)
    (release_date release_date' : option Date) :
  exists s1 m1 s2 s3 m2,
    add_movie_orm title genre duration release_date s = (s1, Ok m1)
    /\ delete_movie_orm (Movie.movie_id m1) s1 = (s2, Ok tt)
    /\ add_movie_orm title' genre' duration' release_date' s2 = (s3, Ok m2)
    /\ Movie.movie_id m2 = Movie.movie_id m1
    /\ Movies (current s3) = Movies (current s) ++ [m2].
Proof.
  pose proof (next_rowid_above (map Movie.movie_id (Movies (current s))))
    as Habove.
  set (m1 := Movie.mk (next_rowid (map Movie.movie_id (Movies (current s))))
               title genre duration release_date).
  set (d1 := with_Movies (current s) (Movies (current s) ++ [m1])).
  destruct (delete_movie_orm_result (mkSession d1 d1) (Movie.movie_id m1))
    as [s2 [Hdel [_ [Hmovies _]]]].
  { simpl. rewrite map_app. apply in_or_app. right. simpl. now left. }
  assert (Hms : Movies (current s2) = Movies (current s)).
  { rewrite Hmovies.
    exact (filter_key_app_fresh Movie.movie_id (Movies (current s)) m1
             Habove). }
  exists (mkSession d1 d1), m1, s2. do 2 eexists.
  split; [reflexivity |]. split; [exact Hdel |].
  split; [reflexivity |]. simpl. rewrite Hms. split; reflexivity.
Qed.

(** ** Deleted movies, their showtimes and the report *)

Lemma flat_map_filter {A B : Type} (p : A -> bool) (f : A -> list B)
    (l : list A) :
  flat_map (fun x => if p x then f x else []) l = flat_map f (filter p l).
Proof.
  induction l as [| x l IH]; simpl; [reflexivity |].
  destruct (p x); simpl; now rewrite IH.
Qed.

(** X5. [delete_movie_orm] deletes no showtime.  For a movie that is in the
    table of a well-formed session, the call returns and leaves the
    Showtimes table as it was, and every report made afterwards is the
    report of before without the rows of the showtimes of that movie: they
    stay in the store and no report shows them. *)
Theorem delete_movie_orm_hides_showtimes (s : Session) (movie_id : Z)
    (start_date end_date : Date) (room_filter movie_filter : option Z) :
  wf_session s ->
  In movie_id (map Movie.movie_id (Movies (current s))) ->
  exists s' rows,
    delete_movie_orm movie_id s = (s', Ok tt)
    /\ Showtimes (current s') = Showtimes (current s)
    /\ generate_report start_date end_date room_filter movie_filter s'
       = (s', Ok rows)
    /\ rows
       = flat_map
           (report_row (current s) start_date end_date room_filter
              movie_filter)
           (filter (fun sh => negb (Showtime.movie_id sh =? movie_id))
              (Showtimes (current s))).
Proof.
  intros Hwf Hin.
  destruct (delete_movie_orm_result s movie_id Hin)
    as [s' [Hdel [_ [Hmovies [Hrooms [Hshow _]]]]]].
  pose proof (wf_delete_movie_orm movie_id s Hwf) as Hwf'.
  rewrite Hdel in Hwf'. simpl in Hwf'. destruct Hwf' as [_ Hwf'].
  exists s'. eexists. split; [exact Hdel |]. split; [exact Hshow |].
  split; [apply generate_report_where |].
  rewrite execute_report_rows by assumption.
  rewrite Hshow, <- flat_map_filter. apply flat_map_ext. intros sh.
  unfold report_row, get_movie, get_room.
  rewrite Hmovies, Hrooms, (find_key_filter Movie.movie_id).
  destruct (Showtime.movie_id sh =? movie_id); reflexivity.
Qed.

Lemma delete_movie_orm_hides_showtimes_witness :
  exists s' rows,
    delete_movie_orm 1 (open_session screening_store) = (s', Ok tt)
    /\ Showtimes (current s') = Showtimes screening_store
    /\ generate_report (mkDate 2024 1 1) (mkDate 2024 12 31) None None s'
       = (s', Ok rows)
    /\ rows = [].
Proof.
  destruct (delete_movie_orm_hides_showtimes (open_session screening_store) 1
              (mkDate 2024 1 1) (mkDate 2024 12 31) None None)
    as [s' [rows [Hdel [Hshow [Hrep Hrows]]]]].
  - split; constructor; simpl; unfold ascending;
      repeat (constructor; simpl; try lia; try tauto).
  - simpl. tauto.
  - exists s', rows. repeat (split; [assumption |]). exact Hrows.
Defined.

(** X6. A new movie takes over the showtimes that reference its id.  In a
    well-formed session, for a showtime in an existing room and with its
    date in the range: when the id that [add_movie_orm] returns is the
    movie id of the showtime (the id of a deleted movie is given again, and
    its showtimes were left), the unfiltered report made after the addition
    shows that showtime with the title and the duration of the new
    movie. *)
Theorem add_movie_orm_adopts_showtime (s : Session) (title : string)
    (genre : option string) (duration : option Z)
    (release_date : option Date) (sh : Showtime.t) (room : Room.t)
    (start_date end_date : Date) :
  wf_session s ->
  In sh (Showtimes (current s)) ->
  get_room (Showtime.room_id sh) (current s) = Some room ->
  between (Showtime.show_date sh) start_date end_date = true ->
  exists s' m rows,
    add_movie_orm title genre duration release_date s = (s', Ok m)
    /\ generate_report start_date end_date None None s' = (s', Ok rows)
    /\ (Showtime.movie_id sh = Movie.movie_id m ->
        In (Report.mk title (Showtime.show_date sh) (Showtime.show_time sh)
              (Room.room_number room) duration)
           rows).
Proof.
  intros Hwf Hsh Hroom Hdate.
  pose proof (next_rowid_above (map Movie.movie_id (Movies (current s))))
    as Habove.
  pose proof (wf_add_movie_orm title genre duration release_date s Hwf)
    as [_ Hwf'].
  set (m := Movie.mk (next_rowid (map Movie.movie_id (Movies (current s))))
              title genre duration release_date) in *.
  exists (fst (add_movie_orm title genre duration release_date s)), m.
  eexists. split; [reflexivity |].
  split; [apply generate_report_where |].
  intros Hid. rewrite execute_report_rows by exact Hwf'.
  apply in_flat_map. exists sh. split; [exact Hsh |].
  unfold report_row.
  assert (Hget : get_movie (Showtime.movie_id sh)
                   (current (fst (add_movie_orm title genre duration
                                    release_date s)))
                 = Some m).
  { rewrite Hid.
    exact (find_key_app_fresh Movie.movie_id (Movies (current s)) m Habove). }
  rewrite Hget.
  change (get_room (Showtime.room_id sh)
            (current (fst (add_movie_orm title genre duration release_date s))))
    with (get_room (Showtime.room_id sh) (current s)).
  rewrite Hroom, Hdate. simpl. now left.
Qed.

Lemma add_movie_orm_adopts_showtime_witness :
  exists s' m rows,
    add_movie_orm "Dune" (Some "Sci-Fi"%string) (Some 155)
      (Some (mkDate 2021 10 22)) (open_session leftover_store)
    = (s', Ok m)
    /\ generate_report (mkDate 2024 1 1) (mkDate 2024 12 31) None None s'
       = (s', Ok rows)
    /\ In (Report.mk "Dune" (mkDate 2024 6 1) (mkTime 20 0 0) 1 (Some 155))
         rows.
Proof.
  destruct (add_movie_orm_adopts_showtime (open_session leftover_store)
              "Dune" (Some "Sci-Fi"%string) (Some 155)
              (Some (mkDate 2021 10 22))
              (Showtime.mk 1 3 1 (mkDate 2024 6 1) (mkTime 20 0 0))
              (Room.mk 1 1 (Some 3))
              (mkDate 2024 1 1) (mkDate 2024 12 31))
    as [s' [m [rows [Hadd [Hrep Hin]]]]].
  - split; constructor; simpl; unfold ascending;
      repeat (constructor; simpl; try lia; try tauto).
  - simpl. tauto.
  - reflexivity.
  - reflexivity.
  - exists s', m, rows. split; [exact Hadd |]. split; [exact Hrep |].
    apply Hin. vm_compute in Hadd. injection Hadd as _ <-. reflexivity.
Defined.

(** ** Association Manager: what a replacement leaves alone *)

Lemma for_each_insert_returns (movie_id : Z) (room_ids : list Z)
    (s s' : Session) :
  for_each room_ids (fun room_id => insert_association movie_id room_id) s
  = (s', Ok tt) ->
  NoDup room_ids
  /\ forall r, In r room_ids ->
       ~ In (movie_id, r) (movie_room_association (current s)).
Proof.
  revert s. induction room_ids as [| r l IH]; intros s H.
  - split; [constructor | intros r []].
  - simpl in H. unfold bind at 1 in H. unfold insert_association at 1 in H.
    destruct (existsb (pair_eqb (movie_id, r))
                (movie_room_association (current s))) eqn:Hex;
      [discriminate |].
    apply existsb_pair_not_In in Hex.
    apply IH in H. simpl in H. destruct H as [Hnd Hfresh].
    split.
    + constructor; [| assumption].
      intros Hin. apply (Hfresh r Hin). apply in_or_app. right. now left.
    + intros r' [<- | Hin]; [assumption |].
      intros Ha. apply (Hfresh r' Hin). apply in_or_app. now left.
Qed.

Lemma update_movie_rooms_state (movie_id : Z) (room_ids : list Z)
    (s : Session) :
  exists done,
    incl done room_ids
    /\ current (fst (update_movie_rooms movie_id room_ids s))
       = with_association (current s)
           (without_movie movie_id (movie_room_association (current s))
            ++ map (pair movie_id) done).
Proof.
  unfold update_movie_rooms. unfold bind at 1.
  unfold delete_association_of_movie, modify. unfold bind at 1.
  match goal with
  | |- context [for_each room_ids ?f ?s0] =>
      destruct (for_each_insert_state movie_id room_ids s0)
        as [done [Hincl Hs]];
      destruct (for_each room_ids f s0) as [s1 [[] | e]]
  end; simpl in Hs; subst s1; exists done; split; auto.
Qed.

Lemma association_of_replaced (movie_id other : Z) (d : Store)
    (done : list Z) :
  other <> movie_id ->
  association_of other
    (with_association d
       (without_movie movie_id (movie_room_association d)
        ++ map (pair movie_id) done))
  = association_of other d.
Proof.
  intros Hne. unfold association_of, without_movie. simpl.
  rewrite filter_app, filter_twice.
  assert (Hnew : filter (fun a => fst a =? other) (map (pair movie_id) done)
                 = []).
  { induction done as [| r l IH]; simpl; [reflexivity |].
    destruct (Z.eqb_spec movie_id other); [congruence | exact IH]. }
  rewrite Hnew, app_nil_r. apply filter_ext. intros a.
  destruct (Z.eqb_spec (fst a) movie_id) as [Ha | Ha]; simpl; [| reflexivity].
  destruct (Z.eqb_spec (fst a) other); [congruence | reflexivity].
Qed.

(** X7. [update_movie_rooms] returns normally exactly when no room id is
    given twice, whether the ids are those of rooms or not.  Whether it
    returns or raises, in the session it leaves the tables Movies, Rooms
    and Showtimes and the association rows of every other movie are as
    before the call. *)
Theorem update_movie_rooms_frame (s : Session) (movie_id : Z)
    (room_ids : list Z) :
  (snd (update_movie_rooms movie_id room_ids s) = Ok tt <-> NoDup room_ids)
  /\ Movies (current (fst (update_movie_rooms movie_id room_ids s)))
     = Movies (current s)
  /\ Rooms (current (fst (update_movie_rooms movie_id room_ids s)))
     = Rooms (current s)
  /\ Showtimes (current (fst (update_movie_rooms movie_id room_ids s)))
     = Showtimes (current s)
  /\ forall other,
       other <> movie_id ->
       association_of other
         (current (fst (update_movie_rooms movie_id room_ids s)))
       = association_of other (current s).
Proof.
  split.
  - split.
    + unfold update_movie_rooms. unfold bind at 1.
      unfold delete_association_of_movie, modify. unfold bind at 1.
      match goal with
      | |- context [for_each room_ids ?f ?s0] =>
          destruct (for_each room_ids f s0) as [s1 [[] | e]] eqn:Hloop
      end; [| discriminate].
      intros _. now apply for_each_insert_returns in Hloop.
    + intros Hnd. now rewrite update_movie_rooms_distinct.
  - destruct (update_movie_rooms_state movie_id room_ids s)
      as [done [_ Hcur]].
    rewrite Hcur. simpl. repeat (split; [reflexivity |]).
    intros other Hne. now apply association_of_replaced.
Qed.

Lemma update_movie_rooms_frame_witness :
  (snd (update_movie_rooms 2 [2; 2] (open_session seeded_store)) = Ok tt
   <-> NoDup [2; 2])
  /\ ~ NoDup [2; 2]
  /\ association_of 1
       (current (fst (update_movie_rooms 2 [2; 2] (open_session seeded_store))))
     = [(1, 1)].
Proof.
  destruct (update_movie_rooms_frame (open_session seeded_store) 2 [2; 2])
    as [Hiff [_ [_ [_ Hother]]]].
  split; [exact Hiff |]. split.
  - intros Hnd. inversion Hnd as [| ? ? Hnotin _]. apply Hnotin. now left.
  - rewrite Hother; [reflexivity | lia].
Defined.

(** ** The form "Manage Movies" *)

(** X8. The rooms that [fetch_movie_rooms] returns for a movie are all
    among the options that the form builds from the Rooms table, so the
    default of the multiselect is a list of its options. *)
Theorem associated_rooms_are_options (s : Session) (movie_id : Z) :
  exists associated_rooms,
    fetch_movie_rooms movie_id s = (s, Ok associated_rooms)
    /\ incl associated_rooms (room_options (Rooms (current s))).
Proof.
  eexists. split; [reflexivity |].
  intros [rid num] Hin. apply select_movie_rooms_In in Hin.
  destruct Hin as [_ [r [Hr [<- <-]]]].
  unfold room_options.
  exact (in_map (fun room => (Room.room_id room, Room.room_number room))
           _ _ Hr).
Qed.

Lemma room_options_fst_inj (rooms : list Room.t) (p q : Z * Z) :
  NoDup (map Room.room_id rooms) ->
  In p (room_options rooms) -> In q (room_options rooms) ->
  fst p = fst q -> p = q.
Proof.
  unfold room_options. induction rooms as [| r l IH]; simpl; intros Hnd Hp Hq Heq;
    [contradiction |].
  inversion Hnd as [| ? ? Hni Hnd']; subst.
  assert (Hfst : forall x, In x (map (fun room => (Room.room_id room,
                                                   Room.room_number room)) l) ->
                           In (fst x) (map Room.room_id l)).
  { intros x Hx. apply in_map_iff in Hx. destruct Hx as [r' [<- Hr']].
    simpl. now apply in_map. }
  destruct Hp as [<- | Hp], Hq as [<- | Hq]; simpl in *.
  - reflexivity.
  - exfalso. apply Hni. rewrite Heq. now apply Hfst.
  - exfalso. apply Hni. rewrite <- Heq. now apply Hfst.
  - now apply IH.
Qed.

Lemma selected_room_ids_NoDup (rooms : list Room.t) (selected : list (Z * Z)) :
  NoDup (map Room.room_id rooms) ->
  NoDup selected -> incl selected (room_options rooms) ->
  NoDup (room_ids_of selected).
Proof.
  intros Hrooms Hnd. unfold room_ids_of.
  induction Hnd as [| a l Hni _ IH]; simpl; intros Hincl; [constructor |].
  constructor.
  - intros Hin. apply in_map_iff in Hin. destruct Hin as [b [Hfst Hb]].
    assert (b = a); [| subst; contradiction].
    apply (room_options_fst_inj rooms); auto.
    + apply Hincl. now right.
    + apply Hincl. now left.
  - apply IH. intros x Hx. apply Hincl. now right.
Qed.

Lemma selected_room_ids_exist (rooms : list Room.t) (selected : list (Z * Z)) :
  incl selected (room_options rooms) ->
  forall r, In r (room_ids_of selected) -> In r (map Room.room_id rooms).
Proof.
  intros Hincl r Hr. unfold room_ids_of in Hr. apply in_map_iff in Hr.
  destruct Hr as [p [<- Hp]]. apply Hincl in Hp. unfold room_options in Hp.
  apply in_map_iff in Hp. destruct Hp as [room [<- Hroom]]. simpl.
  now apply in_map.
Qed.

(** The rooms read back after the rows of a movie are replaced by a
    selection of the options. *)
Lemma select_after_replace (d : Store) (movie_id : Z)
    (selected : list (Z * Z)) :
  wf_store d ->
  NoDup selected -> incl selected (room_options (Rooms d)) ->
  Permutation
    (select_movie_rooms movie_id
       (with_association d
          (without_movie movie_id (movie_room_association d)
           ++ map (pair movie_id) (room_ids_of selected))))
    selected.
Proof.
  intros Hwf Hnd Hincl.
  pose proof (ascending_NoDup _ (wf_Rooms d Hwf)) as Hrooms.
  pose proof (selected_room_ids_NoDup _ _ Hrooms Hnd Hincl) as Hids.
  set (d' := with_association d
               (without_movie movie_id (movie_room_association d)
                ++ map (pair movie_id) (room_ids_of selected))).
  assert (Hwf' : wf_store d').
  { apply wf_with_association; [assumption |].
    apply NoDup_replaced; [apply Hwf | assumption]. }
  apply NoDup_Permutation.
  - apply (NoDup_map_inv fst). apply ascending_NoDup.
    now apply select_movie_rooms_ascending.
  - assumption.
  - intros [rid num]. rewrite select_movie_rooms_In. simpl. split.
    + intros [Ha [r [Hr [Hid Hnum]]]].
      apply in_app_or in Ha. destruct Ha as [Ha | Ha].
      { apply without_movie_In in Ha. simpl in Ha. tauto. }
      apply in_map_iff in Ha. destruct Ha as [x [[= ->] Hx]].
      unfold room_ids_of in Hx. apply in_map_iff in Hx.
      destruct Hx as [p [Hfst Hp]].
      assert (Hpq : p = (rid, num)); [| rewrite <- Hpq; exact Hp].
      apply (room_options_fst_inj (Rooms d)).
      * exact Hrooms.
      * now apply Hincl.
      * rewrite <- Hid, <- Hnum. unfold room_options.
        exact (in_map (fun room => (Room.room_id room, Room.room_number room))
                 _ _ Hr).
      * exact Hfst.
    + intros Hin. split.
      * apply in_or_app. right. apply in_map. unfold room_ids_of.
        exact (in_map fst _ _ Hin).
      * apply Hincl in Hin. unfold room_options in Hin.
        apply in_map_iff in Hin. destruct Hin as [r [[= <- <-] Hr]].
        exists r. auto.
Qed.

(** X9. "Update Movie", for a movie that is in the table of a well-formed
    session and any selection without repetition among the room options of
    the form: the handler returns and commits; the movie has the values of
    the form; and the rooms that [fetch_movie_rooms] then returns for it,
    the default of the form when it is shown again, are the rooms
    selected. *)
Theorem update_movie_button_round_trip (s : Session) (movie_id : Z)
    (title : string) (genre : option string) (duration : option Z)
    (release_date : option Date) (selected_rooms : list (Z * Z)) :
  wf_store (current s) ->
  In movie_id (map Movie.movie_id (Movies (current s))) ->
  NoDup selected_rooms ->
  incl selected_rooms (room_options (Rooms (current s))) ->
  exists s' associated_rooms,
    update_movie_button movie_id title genre duration release_date
      (room_ids_of selected_rooms) s
    = (s', Ok tt)
    /\ committed s' = current s'
    /\ get_movie movie_id (current s')
       = Some (Movie.mk movie_id title genre duration release_date)
    /\ fetch_movie_rooms movie_id s' = (s', Ok associated_rooms)
    /\ Permutation associated_rooms selected_rooms.
Proof.
  intros Hwf Hin Hnd Hincl.
  set (d1 := with_Movies (current s)
               (updated_movies movie_id title genre duration release_date
                  (Movies (current s)))).
  assert (Hwf1 : wf_store d1).
  { apply wf_with_Movies; [assumption |].
    rewrite updated_movies_ids. apply Hwf. }
  pose proof (selected_room_ids_NoDup _ _
                (ascending_NoDup _ (wf_Rooms _ Hwf)) Hnd Hincl) as Hids.
  do 2 eexists. split.
  { unfold update_movie_button, bind.
    rewrite update_movie_orm_result by assumption.
    now rewrite update_movie_rooms_distinct. }
  simpl. split; [reflexivity |]. split; [| split; [reflexivity |]].
  - unfold get_movie. simpl. rewrite updated_movies_get, Z.eqb_refl.
    destruct (find _ (Movies (current s))) eqn:Hget; [reflexivity |].
    apply find_key_None in Hget. contradiction.
  - exact (select_after_replace d1 movie_id selected_rooms Hwf1 Hnd Hincl).
Qed.

Lemma update_movie_button_round_trip_witness :
  exists s' associated_rooms,
    update_movie_button 1 "Inception" (Some "Thriller"%string) (Some 148)
      None (room_ids_of [(2, 2); (1, 1)]) (open_session seeded_store)
    = (s', Ok tt)
    /\ committed s' = current s'
    /\ get_movie 1 (current s')
       = Some (Movie.mk 1 "Inception" (Some "Thriller"%string) (Some 148) None)
    /\ fetch_movie_rooms 1 s' = (s', Ok associated_rooms)
    /\ Permutation associated_rooms [(2, 2); (1, 1)].
Proof.
  apply (update_movie_button_round_trip (open_session seeded_store) 1).
  - constructor; simpl; unfold ascending;
      repeat (constructor; simpl; try lia; try tauto).
  - simpl. tauto.
  - repeat constructor; simpl; intuition congruence.
  - intros p [<- | [<- | []]]; simpl; tauto.
Defined.

(** ** The form "Add New Movie" *)

(** X10. "Add Movie", in a well-formed session and for any selection
    without repetition among the room options of the form: the handler
    returns and commits; the table holds the movies of before followed by
    the new one, which has the values of the form and a new id; and the
    rooms that [fetch_movie_rooms] returns for the new id are the rooms
    selected, whatever association rows the store held under that id. *)
Theorem add_movie_button_round_trip (s : Session) (new_title : string)
    (new_genre : option string) (new_duration : option Z)
    (new_release_date : option Date) (selected_rooms : list (Z * Z)) :
  wf_store (current s) ->
  NoDup selected_rooms ->
  incl selected_rooms (room_options (Rooms (current s))) ->
  exists s' new_id associated_rooms,
    add_movie_button new_title new_genre new_duration new_release_date
      (room_ids_of selected_rooms) s
    = (s', Ok tt)
    /\ committed s' = current s'
    /\ ~ In new_id (map Movie.movie_id (Movies (current s)))
    /\ Movies (current s')
       = Movies (current s)
         ++ [Movie.mk new_id new_title new_genre new_duration
               new_release_date]
    /\ fetch_movie_rooms new_id s' = (s', Ok associated_rooms)
    /\ Permutation associated_rooms selected_rooms.
Proof.
  intros Hwf Hnd Hincl.
  pose proof (next_rowid_above (map Movie.movie_id (Movies (current s))))
    as Habove.
  set (new_id := next_rowid (map Movie.movie_id (Movies (current s)))) in *.
  set (d1 := with_Movies (current s)
               (Movies (current s)
                ++ [Movie.mk new_id new_title new_genre new_duration
                      new_release_date])).
  assert (Hwf1 : wf_store d1).
  { apply wf_with_Movies; [assumption |].
    rewrite map_app. simpl. apply ascending_snoc; [apply Hwf | exact Habove]. }
  pose proof (selected_room_ids_NoDup _ _
                (ascending_NoDup _ (wf_Rooms _ Hwf)) Hnd Hincl) as Hids.
  set (d2 := with_association d1
               (without_movie new_id (movie_room_association d1)
                ++ map (pair new_id) (room_ids_of selected_rooms))).
  exists (mkSession d2 d2), new_id, (select_movie_rooms new_id d2).
  split.
  { unfold add_movie_button, bind at 1.
    change (add_movie_orm new_title new_genre new_duration new_release_date s)
      with (mkSession d1 d1,
            @Ok Movie.t (Movie.mk new_id new_title new_genre new_duration
                           new_release_date)).
    cbv iota. cbn [Movie.movie_id].
    exact (update_movie_rooms_distinct new_id (room_ids_of selected_rooms)
             (mkSession d1 d1) Hids). }
  simpl. split; [reflexivity |]. split.
  { intros Hin. rewrite Forall_forall in Habove.
    specialize (Habove _ Hin). lia. }
  split; [reflexivity |]. split; [reflexivity |].
  exact (select_after_replace d1 new_id selected_rooms Hwf1 Hnd Hincl).
Qed.

Lemma add_movie_button_round_trip_witness :
  exists s' new_id associated_rooms,
    add_movie_button "Dune" (Some "Sci-Fi"%string) (Some 155)
      (Some (mkDate 2021 10 22)) (room_ids_of [(2, 2)])
      (open_session seeded_store)
    = (s', Ok tt)
    /\ committed s' = current s'
    /\ ~ In new_id (map Movie.movie_id (Movies seeded_store))
    /\ Movies (current s')
       = Movies seeded_store
         ++ [Movie.mk new_id "Dune" (Some "Sci-Fi"%string) (Some 155)
               (Some (mkDate 2021 10 22))]
    /\ fetch_movie_rooms new_id s' = (s', Ok associated_rooms)
    /\ Permutation associated_rooms [(2, 2)].
Proof.
  apply (add_movie_button_round_trip (open_session seeded_store)).
  - constructor; simpl; unfold ascending;
      repeat (constructor; simpl; try lia; try tauto).
  - repeat constructor; simpl; tauto.
  - intros p [<- | []]; simpl; tauto.
Defined.

(** ** The select boxes: a movie chosen by its title *)

Lemma dict_get_set_same (k : string) (v : Z) (d : list (string * Z)) :
  dict_get k (dict_set k v d) = Some v.
Proof.
  induction d as [| [k' v'] d IH]; simpl.
  - now rewrite String.eqb_refl.
  - destruct (String.eqb k' k) eqn:E; simpl.
    + now rewrite String.eqb_refl.
    + now rewrite E.
Qed.

Lemma dict_get_set_other (k k0 : string) (v : Z) (d : list (string * Z)) :
  k0 <> k -> dict_get k (dict_set k0 v d) = dict_get k d.
Proof.
  intros Hne. induction d as [| [k' v'] d IH]; simpl.
  - destruct (String.eqb_spec k0 k); [contradiction | reflexivity].
  - destruct (String.eqb_spec k' k0) as [-> | Hk]; simpl.
    + destruct (String.eqb_spec k0 k); [contradiction | reflexivity].
    + destruct (String.eqb k' k); [reflexivity | exact IH].
Qed.

Lemma options_get_later (t : string) (l : list Movie.t)
    (d : list (string * Z)) :
  (forall x, In x l -> Movie.title x <> t) ->
  dict_get t
    (fold_left
       (fun d movie => dict_set (Movie.title movie) (Movie.movie_id movie) d)
       l d)
  = dict_get t d.
Proof.
  revert d. induction l as [| x l IH]; intros d Hl; simpl; [reflexivity |].
  rewrite IH by (intros y Hy; apply Hl; now right).
  apply dict_get_set_other. apply Hl. now left.
Qed.

Lemma options_get_sound (P : string -> Z -> Prop) (l : list Movie.t)
    (d : list (string * Z)) :
  (forall t i, dict_get t d = Some i -> P t i) ->
  (forall x, In x l -> P (Movie.title x) (Movie.movie_id x)) ->
  forall t i,
    dict_get t
      (fold_left
         (fun d movie => dict_set (Movie.title movie) (Movie.movie_id movie) d)
         l d)
    = Some i ->
    P t i.
Proof.
  revert d. induction l as [| x l IH]; intros d Hd Hl t i; simpl; [apply Hd |].
  apply IH.
  - intros t' i' Hget.
    destruct (String.eqb_spec (Movie.title x) t') as [<- | Hne].
    + rewrite dict_get_set_same in Hget. injection Hget as <-.
      apply Hl. now left.
    + rewrite dict_get_set_other in Hget by assumption. now apply Hd.
  - intros y Hy. apply Hl. now right.
Qed.

Lemma find_title_first (t : string) (l1 l2 : list Movie.t) (m : Movie.t) :
  (forall x, In x l1 -> Movie.title x <> t) ->
  Movie.title m = t ->
  find (fun movie => String.eqb (Movie.title movie) t) (l1 ++ m :: l2)
  = Some m.
Proof.
  intros Hl1 Hm. induction l1 as [| x l1 IH]; simpl.
  - subst t. now rewrite String.eqb_refl.
  - destruct (String.eqb_spec (Movie.title x) t) as [Hx | _].
    + exfalso. apply (Hl1 x); [now left | assumption].
    + apply IH. intros y Hy. apply Hl1. now right.
Qed.

Lemma options_keys_kept (t : string) (l : list Movie.t)
    (d : list (string * Z)) :
  dict_get t d <> None ->
  dict_get t
    (fold_left
       (fun d movie => dict_set (Movie.title movie) (Movie.movie_id movie) d)
       l d)
  <> None.
Proof.
  revert d. induction l as [| x l IH]; intros d Hd; simpl; [exact Hd |].
  apply IH. destruct (String.eqb_spec (Movie.title x) t) as [<- | Hne].
  - rewrite dict_get_set_same. discriminate.
  - now rewrite dict_get_set_other.
Qed.

Lemma options_keys_complete (movie : Movie.t) (l : list Movie.t)
    (d : list (string * Z)) :
  In movie l ->
  dict_get (Movie.title movie)
    (fold_left
       (fun d movie => dict_set (Movie.title movie) (Movie.movie_id movie) d)
       l d)
  <> None.
Proof.
  revert d. induction l as [| x l IH]; intros d Hin; [contradiction |].
  simpl. destruct Hin as [-> | Hin]; [| now apply IH].
  apply options_keys_kept. rewrite dict_get_set_same. discriminate.
Qed.

(** X11. The id that the form "Manage Movies" looks up for a title is the
    id of a movie of the list with that title, and every title of the list
    can be looked up: the id the handlers of the form receive is the id of
    a movie that is in the table. *)
Theorem movie_options_are_movies (movies : list Movie.t) :
  (forall t i,
     dict_get t (movie_options movies) = Some i ->
     exists movie,
       In movie movies /\ Movie.title movie = t /\ Movie.movie_id movie = i)
  /\ (forall movie,
        In movie movies ->
        exists i,
          dict_get (Movie.title movie) (movie_options movies) = Some i
          /\ In i (map Movie.movie_id movies)).
Proof.
  assert (Hsound : forall t i,
             dict_get t (movie_options movies) = Some i ->
             exists movie,
               In movie movies /\ Movie.title movie = t
               /\ Movie.movie_id movie = i).
  { unfold movie_options.
    apply (options_get_sound
             (fun t i => exists movie,
                In movie movies /\ Movie.title movie = t
                /\ Movie.movie_id movie = i)).
    - intros t i H. discriminate.
    - intros x Hx. exists x. auto. }
  split; [exact Hsound |].
  intros movie Hin.
  destruct (dict_get (Movie.title movie) (movie_options movies)) as [i |] eqn:Hget.
  - exists i. split; [reflexivity |].
    destruct (Hsound _ _ Hget) as [m [Hm [_ <-]]]. now apply in_map.
  - exfalso. revert Hget. unfold movie_options.
    now apply options_keys_complete.
Qed.

Lemma movie_options_are_movies_witness :
  dict_get "Inception" (movie_options (Movies seeded_store)) = Some 1
  /\ exists movie,
       In movie (Movies seeded_store)
       /\ Movie.title movie = "Inception"%string
       /\ Movie.movie_id movie = 1.
Proof.
  split; [reflexivity |].
  apply (proj1 (movie_options_are_movies (Movies seeded_store))).
  reflexivity.
Defined.

(** ** The report: filters and date range *)

Lemma date_leb_iff (a b : Date) :
  date_leb a b = true
  <-> year a < year b
      \/ (year a = year b
          /\ (month a < month b \/ (month a = month b /\ day a <= day b))).
Proof.
  unfold date_leb.
  rewrite !orb_true_iff, !andb_true_iff, !orb_true_iff, !andb_true_iff.
  rewrite !Z.ltb_lt, !Z.eqb_eq, Z.leb_le. tauto.
Qed.

Lemma between_ordered (x lo hi : Date) :
  between x lo hi = true -> date_leb lo hi = true.
Proof.
  unfold between. rewrite andb_true_iff, !date_leb_iff. lia.
Qed.

Lemma unique_room (d : Store) (r r' : Room.t) :
  NoDup (map Room.room_id (Rooms d)) ->
  In r (Rooms d) -> In r' (Rooms d) -> Room.room_id r = Room.room_id r' ->
  r = r'.
Proof.
  induction (Rooms d) as [| x l IH]; simpl; intros Hnd Hr Hr' Hid;
    [contradiction |].
  inversion Hnd as [| ? ? Hni Hnd']; subst.
  destruct Hr as [-> | Hr], Hr' as [-> | Hr']; auto.
  - exfalso. apply Hni. rewrite Hid. now apply in_map.
  - exfalso. apply Hni. rewrite <- Hid. now apply in_map.
Qed.

(** Every row of a report comes from a showtime joined with its movie and
    its room, in the range and through the filters. *)
Lemma execute_report_sound (d : Store) (start_date end_date : Date)
    (room_filter movie_filter : option Z) (row : Report.t) :
  In row
    (execute_report (report_where start_date end_date room_filter movie_filter)
       d) ->
  exists sh m r,
    In sh (Showtimes d) /\ In m (Movies d) /\ In r (Rooms d)
    /\ Showtime.movie_id sh = Movie.movie_id m
    /\ Showtime.room_id sh = Room.room_id r
    /\ row = report_columns (sh, m, r)
    /\ between (Showtime.show_date sh) start_date end_date = true
    /\ filter_applies room_filter (Room.room_id r) = true
    /\ filter_applies movie_filter (Movie.movie_id m) = true.
Proof.
  unfold execute_report. intros Hrow. apply in_map_iff in Hrow.
  destruct Hrow as [[[sh m] r] [<- Hj]]. apply filter_In in Hj.
  destruct Hj as [Hfrom Hsat]. rewrite satisfies_report_where in Hsat.
  apply andb_true_iff in Hsat. destruct Hsat as [Hsat Hmovie].
  apply andb_true_iff in Hsat. destruct Hsat as [Hdate Hroom].
  unfold report_from in Hfrom. apply in_flat_map in Hfrom.
  destruct Hfrom as [sh' [Hsh Hin]]. apply in_flat_map in Hin.
  destruct Hin as [m' [Hm Hin]].
  destruct (Z.eqb_spec (Showtime.movie_id sh') (Movie.movie_id m'));
    [| contradiction].
  apply in_flat_map in Hin. destruct Hin as [r' [Hr Hin]].
  destruct (Z.eqb_spec (Showtime.room_id sh') (Room.room_id r'));
    [| contradiction].
  destruct Hin as [[= -> -> ->] | []].
  exists sh, m, r. repeat split; assumption.
Qed.

Lemma filter_applies_nonzero (x v : Z) :
  x <> 0 -> filter_applies (Some x) v = (v =? x).
Proof.
  intros Hx. unfold filter_applies.
  destruct (Z.eqb_spec x 0); [contradiction | reflexivity].
Qed.

(** X14. A report for a range whose end is before its start is empty, in
    every session and with any filters; the call returns normally. *)
Theorem generate_report_reversed_range (s : Session)
    (start_date end_date : Date) (room_id movie_id : option Z) :
  date_leb start_date end_date = false ->
  generate_report start_date end_date room_id movie_id s = (s, Ok []).
Proof.
  intros Hrev. rewrite generate_report_where. f_equal. f_equal.
  pose proof (execute_report_in_range (current s) start_date end_date
                room_id movie_id) as Hrange.
  destruct (execute_report _ (current s)) as [| row rows]; [reflexivity |].
  inversion Hrange as [| ? ? Hrow _]; subst.
  apply between_ordered in Hrow. congruence.
Qed.

Lemma generate_report_reversed_range_witness :
  generate_report (mkDate 2024 12 31) (mkDate 2024 1 1) None None
    (open_session screening_store)
  = (open_session screening_store, Ok []).
Proof.
  apply (generate_report_reversed_range (open_session screening_store)).
  reflexivity.
Defined.

(** X15. A report with a room id other than 0 has only rows whose room
    number is the number of a room with that id, and a report with a movie
    id other than 0 only rows whose title and duration are those of a movie
    with that id; in every session. *)
Theorem generate_report_filters_sound (s : Session)
    (start_date end_date : Date) (room_id movie_id : option Z) :
  exists rows,
    generate_report start_date end_date room_id movie_id s = (s, Ok rows)
    /\ (forall x, room_id = Some x -> x <> 0 ->
          forall row, In row rows ->
            exists room,
              In room (Rooms (current s)) /\ Room.room_id room = x
              /\ Report.room_number row = Room.room_number room)
    /\ (forall y, movie_id = Some y -> y <> 0 ->
          forall row, In row rows ->
            exists movie,
              In movie (Movies (current s)) /\ Movie.movie_id movie = y
              /\ Report.title row = Movie.title movie
              /\ Report.duration row = Movie.duration movie).
Proof.
  eexists. split; [apply generate_report_where |]. split.
  - intros x -> Hx row Hrow. apply execute_report_sound in Hrow.
    destruct Hrow as [sh [m [r [_ [_ [Hr [_ [_ [-> [_ [Hroom _]]]]]]]]]]].
    rewrite filter_applies_nonzero in Hroom by assumption.
    apply Z.eqb_eq in Hroom. exists r. auto.
  - intros y -> Hy row Hrow. apply execute_report_sound in Hrow.
    destruct Hrow as [sh [m [r [_ [Hm [_ [_ [_ [-> [_ [_ Hmovie]]]]]]]]]]].
    rewrite filter_applies_nonzero in Hmovie by assumption.
    apply Z.eqb_eq in Hmovie. exists m. auto.
Qed.

Lemma generate_report_filters_sound_witness :
  exists rows,
    generate_report (mkDate 2024 1 1) (mkDate 2024 12 31) (Some 1) (Some 1)
      (open_session screening_store)
    = (open_session screening_store, Ok rows)
    /\ (forall row, In row rows ->
          exists room,
            In room (Rooms screening_store) /\ Room.room_id room = 1
            /\ Report.room_number row = Room.room_number room)
    /\ (forall row, In row rows ->
          exists movie,
            In movie (Movies screening_store) /\ Movie.movie_id movie = 1
            /\ Report.title row = Movie.title movie
            /\ Report.duration row = Movie.duration movie).
Proof.
  destruct (generate_report_filters_sound (open_session screening_store)
              (mkDate 2024 1 1) (mkDate 2024 12 31) (Some 1) (Some 1))
    as [rows [Hrep [Hroom Hmovie]]].
  exists rows. split; [exact Hrep |]. split.
  - apply (Hroom 1); [reflexivity | lia].
  - apply (Hmovie 1); [reflexivity | lia].
Defined.

(** X12. "Generate Report" with a room selected: the select box holds room
    numbers, and the handler filters by the id of the first room that has
    the number.  In a well-formed session where that room has an id other
    than 0, the report is the unfiltered report restricted to the showtimes
    held in that one room, and every row shows the number selected;
    showtimes in another room with the same number are left out. *)
Theorem generate_report_button_room (s : Session) (n : Z) (room : Room.t)
    (start_date end_date : Date) :
  wf_store (current s) ->
  find (fun r => Room.room_number r =? n) (Rooms (current s)) = Some room ->
  Room.room_id room <> 0 ->
  exists rows,
    generate_report_button (Some n) None start_date end_date s = (s, Ok rows)
    /\ rows
       = flat_map (report_row (current s) start_date end_date None None)
           (filter (fun sh => Showtime.room_id sh =? Room.room_id room)
              (Showtimes (current s)))
    /\ Forall (fun row => Report.room_number row = n) rows.
Proof.
  intros Hwf Hfind Hid.
  pose proof (find_some _ _ Hfind) as [Hroom Hn]. apply Z.eqb_eq in Hn.
  assert (Hrep : generate_report_button (Some n) None start_date end_date s
                 = (s, Ok (execute_report
                             (report_where start_date end_date
                                (Some (Room.room_id room)) None)
                             (current s)))).
  { unfold generate_report_button, bind, read. simpl. rewrite Hfind. simpl.
    apply generate_report_where. }
  eexists. split; [exact Hrep |]. split.
  - rewrite execute_report_rows by assumption.
    rewrite <- flat_map_filter. apply flat_map_ext. intros sh.
    unfold report_row.
    destruct (get_movie (Showtime.movie_id sh) (current s));
      [| now destruct (Showtime.room_id sh =? Room.room_id room)].
    destruct (get_room (Showtime.room_id sh) (current s));
      [| now destruct (Showtime.room_id sh =? Room.room_id room)].
    rewrite filter_applies_nonzero by assumption. simpl.
    rewrite !andb_true_r.
    destruct (Showtime.room_id sh =? Room.room_id room);
      [now rewrite andb_true_r | now rewrite andb_false_r].
  - apply Forall_forall. intros row Hrow. apply execute_report_sound in Hrow.
    destruct Hrow as [sh [m [r [_ [_ [Hr [_ [_ [-> [_ [Hf _]]]]]]]]]]].
    rewrite filter_applies_nonzero in Hf by assumption.
    apply Z.eqb_eq in Hf.
    assert (r = room); [| now subst].
    apply (unique_room (current s)); auto.
    apply ascending_NoDup, Hwf.
Qed.

Lemma generate_report_button_room_witness :
  exists rows,
    generate_report_button (Some 1) None (mkDate 2024 1 1) (mkDate 2024 12 31)
      (open_session screening_store)
    = (open_session screening_store, Ok rows)
    /\ rows
       = flat_map
           (report_row screening_store (mkDate 2024 1 1) (mkDate 2024 12 31)
              None None)
           (filter (fun sh => Showtime.room_id sh =? 1)
              (Showtimes screening_store))
    /\ Forall (fun row => Report.room_number row = 1) rows.
Proof.
  apply (generate_report_button_room (open_session screening_store) 1
           (Room.mk 1 1 (Some 3))).
  - constructor; simpl; unfold ascending;
      repeat (constructor; simpl; try lia; try tauto).
  - reflexivity.
  - simpl. lia.
Defined.

(** ** Two movies with one title *)

(** X13. Two movies with one title.  In a list where a title belongs to a
    movie and again to a later movie, and to no movie before the first or
    after the second of them, the form "Manage Movies" looks up the id of
    the later movie for that title, and the form "Generate Movie Report"
    the id of the earlier one.  When the list is the Movies table of a
    well-formed session, the two ids differ, so the first form never
    receives the id of the earlier movie for that title; and when the id of
    the earlier movie is not 0, the report generated with that title
    selected and no room is the unfiltered report restricted to the
    showtimes of the earlier movie. *)
Theorem same_title_last_and_first (l1 l2 l3 : list Movie.t)
    (m1 m2 : Movie.t) :
  Movie.title m1 = Movie.title m2 ->
  (forall x, In x l1 -> Movie.title x <> Movie.title m1) ->
  (forall x, In x l3 -> Movie.title x <> Movie.title m1) ->
  dict_get (Movie.title m1) (movie_options (l1 ++ m1 :: l2 ++ m2 :: l3))
  = Some (Movie.movie_id m2)
  /\ selected_movie_id (l1 ++ m1 :: l2 ++ m2 :: l3) (Some (Movie.title m1))
     = Some (Movie.movie_id m1)
  /\ forall (s : Session) (start_date end_date : Date),
       Movies (current s) = l1 ++ m1 :: l2 ++ m2 :: l3 ->
       wf_store (current s) ->
       Movie.movie_id m2 <> Movie.movie_id m1
       /\ dict_get (Movie.title m1) (movie_options (Movies (current s)))
          <> Some (Movie.movie_id m1)
       /\ (Movie.movie_id m1 <> 0 ->
           exists rows,
             generate_report_button None (Some (Movie.title m1))
               start_date end_date s
             = (s, Ok rows)
             /\ rows
                = flat_map
                    (report_row (current s) start_date end_date None None)
                    (filter
                       (fun sh => Showtime.movie_id sh =? Movie.movie_id m1)
                       (Showtimes (current s)))).
Proof.
  intros Htitle Hl1 Hl3.
  assert (Hlast : dict_get (Movie.title m1)
                    (movie_options (l1 ++ m1 :: l2 ++ m2 :: l3))
                  = Some (Movie.movie_id m2)).
  { unfold movie_options.
    replace (l1 ++ m1 :: l2 ++ m2 :: l3)
      with ((l1 ++ m1 :: l2) ++ [m2] ++ l3)
      by (rewrite <- !app_assoc; reflexivity).
    rewrite !fold_left_app. rewrite options_get_later by assumption.
    simpl. rewrite Htitle. apply dict_get_set_same. }
  assert (Hfirst : find (fun movie =>
                           String.eqb (Movie.title movie) (Movie.title m1))
                     (l1 ++ m1 :: l2 ++ m2 :: l3)
                   = Some m1)
    by (now apply find_title_first).
  split; [exact Hlast |]. split.
  { unfold selected_movie_id. now rewrite Hfirst. }
  intros s start_date end_date Hmovies Hwf.
  assert (Hids : Movie.movie_id m2 <> Movie.movie_id m1).
  { pose proof (ascending_NoDup _ (wf_Movies _ Hwf)) as Hnd.
    rewrite Hmovies, map_app in Hnd. apply NoDup_app_remove_l in Hnd.
    simpl in Hnd. inversion Hnd as [| ? ? Hni _]; subst.
    intros Heq. apply Hni. rewrite <- Heq, map_app.
    apply in_or_app. right. simpl. now left. }
  split; [exact Hids |]. split.
  { rewrite Hmovies, Hlast. congruence. }
  intros Hid.
  assert (Hrep : generate_report_button None (Some (Movie.title m1))
                   start_date end_date s
                 = (s, Ok (execute_report
                             (report_where start_date end_date None
                                (Some (Movie.movie_id m1)))
                             (current s)))).
  { unfold generate_report_button, bind, read. simpl.
    rewrite Hmovies, Hfirst. simpl. apply generate_report_where. }
  eexists. split; [exact Hrep |].
  rewrite execute_report_rows by assumption.
  rewrite <- flat_map_filter. apply flat_map_ext. intros sh.
  unfold report_row.
  destruct (get_movie (Showtime.movie_id sh) (current s));
    [| now destruct (Showtime.movie_id sh =? Movie.movie_id m1)].
  destruct (get_room (Showtime.room_id sh) (current s));
    [| now destruct (Showtime.movie_id sh =? Movie.movie_id m1)].
  rewrite filter_applies_nonzero by assumption. simpl.
  rewrite !andb_true_r.
  destruct (Showtime.movie_id sh =? Movie.movie_id m1);
    [now rewrite andb_true_r | now rewrite andb_false_r].
Qed.

Lemma same_title_last_and_first_witness :
  dict_get "Dune" (movie_options (Movies twin_store)) = Some 2
  /\ selected_movie_id (Movies twin_store) (Some "Dune"%string) = Some 1
  /\ exists rows,
       generate_report_button None (Some "Dune"%string)
         (mkDate 2024 1 1) (mkDate 2024 12 31) (open_session twin_store)
       = (open_session twin_store, Ok rows)
       /\ rows = [Report.mk "Dune" (mkDate 2024 6 1) (mkTime 18 0 0) 1
                    (Some 137)].
Proof.
  destruct (same_title_last_and_first [] [] []
              (Movie.mk 1 "Dune" None (Some 137) None)
              (Movie.mk 2 "Dune" None (Some 155) None))
    as [Hlast [Hfirst Hsession]].
  - reflexivity.
  - intros x [].
  - intros x [].
  - split; [exact Hlast |]. split; [exact Hfirst |].
    destruct (Hsession (open_session twin_store)
                (mkDate 2024 1 1) (mkDate 2024 12 31))
      as [_ [_ Hreport]].
    + reflexivity.
    + constructor; simpl; unfold ascending;
        repeat (constructor; simpl; try lia; try tauto).
    + destruct Hreport as [rows [Hrep Hrows]]; [simpl; lia |].
      exists rows. split; [exact Hrep |]. rewrite Hrows. reflexivity.
Defined.

(** ** The seed, from any store *)

(** X16. From any session, a seed that returns normally leaves at least
    one room and one movie and everything committed, and a further seed
    returns and changes nothing. *)
Theorem add_sample_data_idempotent (s s' : Session) :
  add_sample_data s = (s', Ok tt) ->
  Rooms (current s') <> []
  /\ Movies (current s') <> []
  /\ committed s' = current s'
  /\ add_sample_data s' = (s', Ok tt).
Proof.
  intros H. pose proof (add_sample_data_returns s s' H) as [Hr [Hm Hc]].
  repeat (split; [assumption |]).
  rewrite add_sample_data_seeded by assumption.
  destruct s' as [c d]. simpl in *. now subst.
Qed.

Lemma add_sample_data_idempotent_witness :
  Rooms (current (open_session seeded_store)) <> []
  /\ Movies (current (open_session seeded_store)) <> []
  /\ committed (open_session seeded_store)
     = current (open_session seeded_store)
  /\ add_sample_data (open_session seeded_store)
     = (open_session seeded_store, Ok tt).
Proof.
  apply (add_sample_data_idempotent (open_session empty_store)).
  reflexivity.
Defined.

(** X17. The two checks of the seed are independent.  When the Rooms table
    is empty and the Movies table is not, the seed returns and commits: it
    has inserted the two rooms, with ids 1 and 2, and nothing else; no
    movie is added and no movie is linked to a room. *)
Theorem add_sample_data_rooms_only (s : Session) :
  Rooms (current s) = [] ->
  Movies (current s) <> [] ->
  exists s',
    add_sample_data s = (s', Ok tt)
    /\ committed s' = current s'
    /\ Rooms (current s') = [Room.mk 1 1 (Some 3); Room.mk 2 2 (Some 2)]
    /\ Movies (current s') = Movies (current s)
    /\ Showtimes (current s') = Showtimes (current s)
    /\ movie_room_association (current s')
       = movie_room_association (current s).
Proof.
  destruct s as [c [ms rs sh ass]]. simpl. intros -> Hms.
  destruct ms as [| m ms]; [contradiction |].
  eexists. split; [reflexivity |]. simpl. repeat split; reflexivity.
Qed.

Lemma add_sample_data_rooms_only_witness :
  exists s',
    add_sample_data
      (open_session (mkStore (Movies seeded_store) [] [] []))
    = (s', Ok tt)
    /\ committed s' = current s'
    /\ Rooms (current s') = [Room.mk 1 1 (Some 3); Room.mk 2 2 (Some 2)]
    /\ Movies (current s') = Movies seeded_store
    /\ Showtimes (current s') = []
    /\ movie_room_association (current s') = [].
Proof.
  apply (add_sample_data_rooms_only
           (open_session (mkStore (Movies seeded_store) [] [] []))).
  - reflexivity.
  - simpl. discriminate.
Defined.

(** X18. When the Movies table is empty and the Rooms table holds a room
    with id 1, whatever its number, and the association table has no row
    (1, 1): the seed returns and commits; it has inserted the two movies,
    with ids 1 and 2, and the one association row (1, 1), which links
    Inception to the room with id 1; the Rooms table is as before. *)
Theorem add_sample_data_movies_only (s : Session) (room : Room.t) :
  Movies (current s) = [] ->
  get_room 1 (current s) = Some room ->
  ~ In (1, 1) (movie_room_association (current s)) ->
  exists s',
    add_sample_data s = (s', Ok tt)
    /\ committed s' = current s'
    /\ Movies (current s') = Movies seeded_store
    /\ Rooms (current s') = Rooms (current s)
    /\ Showtimes (current s') = Showtimes (current s)
    /\ movie_room_association (current s')
       = movie_room_association (current s) ++ [(1, 1)]
    /\ fetch_movie_rooms 1 s' = (s', Ok (select_movie_rooms 1 (current s')))
    /\ In (1, Room.room_number room) (select_movie_rooms 1 (current s')).
Proof.
  destruct s as [c [ms rs sh ass]]. simpl. intros -> Hroom Hfresh.
  pose proof (find_key_Some _ _ _ _ Hroom) as [Hin Hid].
  apply existsb_pair_not_In in Hfresh.
  destruct rs as [| r rs]; [discriminate |].
  eexists. split.
  { unfold add_sample_data, bind, read, flushing, commit, insert_movie,
      insert_association, ret, get_room. cbn [current committed Rooms Movies
      movie_room_association hd_error with_Movies with_association].
    unfold get_room in Hroom. cbn [Rooms] in Hroom. rewrite Hroom.
    cbn. rewrite Hid, Hfresh. reflexivity. }
  repeat (split; [reflexivity |]).
  apply select_movie_rooms_In. split.
  - simpl. apply in_or_app. right. now left.
  - exists room. simpl in *. auto.
Qed.

Lemma add_sample_data_movies_only_witness :
  exists s',
    add_sample_data
      (open_session (mkStore [] [Room.mk 1 7 None; Room.mk 2 1 None] [] []))
    = (s', Ok tt)
    /\ Movies (current s') = Movies seeded_store
    /\ movie_room_association (current s') = [(1, 1)]
    /\ In (1, 7) (select_movie_rooms 1 (current s')).
Proof.
  destruct (add_sample_data_movies_only
              (open_session
                 (mkStore [] [Room.mk 1 7 None; Room.mk 2 1 None] [] []))
              (Room.mk 1 7 None))
    as [s' [Hseed [_ [Hmovies [_ [_ [Hassoc [_ Hlink]]]]]]]].
  - reflexivity.
  - reflexivity.
  - simpl. tauto.
  - exists s'. repeat (split; [assumption |]). exact Hlink.
Defined.

(** ** The forms keep the association table referentially intact *)

Lemma wf_update_movie_button (movie_id : Z) (t : string) (g : option string)
    (n : option Z) (r : option Date) (room_ids : list Z) :
  preserves wf_session (update_movie_button movie_id t g n r room_ids).
Proof.
  unfold update_movie_button. apply preserves_bind.
  - apply wf_update_movie_orm.
  - intros _. apply wf_update_movie_rooms.
Qed.

Lemma wf_add_movie_button (t : string) (g : option string) (n : option Z)
    (r : option Date) (room_ids : list Z) :
  preserves wf_session (add_movie_button t g n r room_ids).
Proof.
  unfold add_movie_button. apply preserves_bind.
  - apply wf_add_movie_orm.
  - intros m. apply wf_update_movie_rooms.
Qed.

Lemma intact_update_movie_button (s : Session) (movie_id : Z) (t : string)
    (g : option string) (n : option Z) (r : option Date)
    (selected_rooms : list (Z * Z)) :
  In movie_id (map Movie.movie_id (Movies (current s))) ->
  incl selected_rooms (room_options (Rooms (current s))) ->
  intact s ->
  intact (fst (update_movie_button movie_id t g n r
                 (room_ids_of selected_rooms) s)).
Proof.
  intros Hin Hincl Hintact.
  pose proof (intact_update_movie_orm movie_id t g n r s Hintact) as H1.
  unfold update_movie_button, bind.
  rewrite update_movie_orm_result in * by assumption. simpl in H1.
  apply intact_update_movie_rooms; [| | exact H1].
  - simpl. now rewrite updated_movies_ids.
  - simpl. now apply selected_room_ids_exist.
Qed.

Lemma intact_add_movie_button (s : Session) (t : string) (g : option string)
    (n : option Z) (r : option Date) (selected_rooms : list (Z * Z)) :
  incl selected_rooms (room_options (Rooms (current s))) ->
  intact s ->
  intact (fst (add_movie_button t g n r (room_ids_of selected_rooms) s)).
Proof.
  intros Hincl Hintact.
  pose proof (intact_add_movie_orm t g n r s Hintact) as H1.
  unfold add_movie_button, bind.
  destruct (add_movie_orm t g n r s) as [s1 [m |]] eqn:Hadd;
    [| discriminate Hadd].
  injection Hadd as <- <-. simpl in H1.
  apply intact_update_movie_rooms; [| | exact H1].
  - simpl. rewrite map_app. apply in_or_app. right. simpl. now left.
  - simpl. now apply selected_room_ids_exist.
Qed.

(** X19. Every session reached from the empty store through the forms (the
    seed button, "Add Movie", "Update Movie" and "Delete Movie", run with a
    movie of the select box and rooms among the options of the
    multiselect, returning or raising) is well-formed and referentially
    intact, in its committed store and in its open transaction: every
    association row references a movie and a room that exist. *)
Theorem forms_keep_referential_integrity (s : Session) :
  form_reachable s -> wf_session s /\ intact s.
Proof.
  induction 1 as [| s s' _ [Hwf Hintact] Hstep].
  - split; [apply wf_open_empty |]. split; intros a [].
  - destruct Hstep.
    + split; [now apply wf_add_sample_data | now apply intact_add_sample_data].
    + split; [now apply wf_add_movie_button | now apply intact_add_movie_button].
    + split; [now apply wf_update_movie_button
             | now apply intact_update_movie_button].
    + split; [now apply wf_delete_movie_orm | now apply intact_delete_movie_orm].
Qed.

Lemma forms_keep_referential_integrity_witness :
  wf_session
    (fst (add_movie_button "Dune" None (Some 155) None (room_ids_of [(2, 2)])
            (fst (add_sample_data (open_session empty_store)))))
  /\ intact
       (fst (add_movie_button "Dune" None (Some 155) None
               (room_ids_of [(2, 2)])
               (fst (add_sample_data (open_session empty_store))))).
Proof.
  apply forms_keep_referential_integrity.
  eapply form_reachable_step.
  - eapply form_reachable_step; [apply form_reachable_start | apply form_seed].
  - apply form_add. intros p [<- | []]. simpl. tauto.
Defined.

(** ** Commit or nothing *)

(** X20. Each of the five functions that write either returns normally,
    and then the session holds nothing uncommitted (what an earlier failed
    call had left in the open transaction is committed with it), or
    raises, and then the committed store is the one of before the call. *)
Theorem writes_settle (s : Session) :
  settles add_sample_data s
  /\ (forall title genre duration release_date,
        settles (add_movie_orm title genre duration release_date) s)
  /\ (forall movie_id title genre duration release_date,
        settles (update_movie_orm movie_id title genre duration release_date) s)
  /\ (forall movie_id, settles (delete_movie_orm movie_id) s)
  /\ (forall movie_id room_ids,
        settles (update_movie_rooms movie_id room_ids) s).
Proof.
  split; [| split; [| split; [| split]]].
  - destruct (add_sample_data s) as [s' [[] | e]] eqn:H.
    + left. exists tt. rewrite H. split; [reflexivity |].
      now apply add_sample_data_returns in H.
    + right. exists e. rewrite H. split; [reflexivity |]. simpl.
      destruct s as [c [ms rs sh ass]].
      revert H.
      unfold add_sample_data, bind, read, flushing, commit, insert_room,
        insert_movie, insert_association, raise, ret, get_room.
      destruct rs as [| r rs]; destruct ms as [| m ms]; cbn [current committed
        Rooms Movies movie_room_association hd_error with_Rooms with_Movies
        with_association app fst snd].
      * cbn. destruct (existsb _ ass); intros [= <- _]; reflexivity.
      * intros [=].
      * destruct (find _ (r :: rs)) as [r1 |]; cbn;
          [destruct (existsb _ ass) |]; intros [= <- _]; reflexivity.
      * intros [=].
  - intros t g n r. left. eexists. split; reflexivity.
  - intros movie_id t g n r. unfold settles, update_movie_orm, bind, read.
    destruct (get_movie movie_id (current s)) as [m |]; simpl.
    + left. eexists. split; reflexivity.
    + right. eexists. split; reflexivity.
  - intros movie_id.
    destruct (in_dec Z.eq_dec movie_id
                (map Movie.movie_id (Movies (current s)))) as [Hin | Hout].
    + destruct (delete_movie_orm_result s movie_id Hin)
        as [s' [Hdel [Hcommit _]]].
      left. exists tt. rewrite Hdel. auto.
    + right. exists UnmappedInstanceError.
      unfold delete_movie_orm, bind, read.
      apply find_key_None in Hout. unfold get_movie. rewrite Hout.
      split; reflexivity.
  - intros movie_id room_ids.
    destruct (update_movie_rooms movie_id room_ids s) as [s' [[] | e]] eqn:H.
    + left. exists tt. rewrite H. split; [reflexivity |]. simpl.
      revert H. unfold update_movie_rooms. unfold bind at 1.
      unfold delete_association_of_movie, modify. unfold bind at 1.
      match goal with
      | |- context [for_each room_ids ?f ?s0] =>
          destruct (for_each room_ids f s0) as [s1 [[] | e1]]
      end; [| discriminate].
      intros [= <-]. reflexivity.
    + right. exists e. rewrite H. split; [reflexivity |]. simpl.
      apply update_movie_rooms_raises in H.
      destruct H as [_ [done [r [rest [_ [_ ->]]]]]]. reflexivity.
Qed.
